(** * Experience-section extraction of the resume parser

    A shallow embedding of [NLPProcessor.extract_experience] and of the four
    strategies it dispatches to
    (backend/core/nlp_processor.py, lines 114-468), together with the part of
    Python's [str] and [re] modules those routines use.  Also embedded, with
    their own properties: [TextExtractor.clean_text]
    (backend/utils/text_extractor.py), which prepares the text the engine
    receives, [ResumeParser._extract_summary] (backend/core/resume_parser.py),
    [NLPProcessor.extract_education] and the name loop of
    [NLPProcessor.extract_contact_info].

    Conventions of the model.
    - A Python [str] is a list of characters; the model covers ASCII text
      (a byte above 127 is a caseless symbol that is neither a letter, a
      digit nor white space).
    - Offsets and scores are integers ([Z]); [str.find] answers [-1] when
      nothing is found, as in Python.
    - Subscripting a list and reading a group of a match may raise; they
      live in the [result] monad, and so does every routine built on them.
    - [re] is a backtracking matcher: greedy repetition, ordered
      alternation, numbered capture groups. *)

From Stdlib Require Import List ZArith Lia Bool Ascii String Permutation Sorted.
Import ListNotations.

Local Open Scope Z_scope.

(** ** Python strings *)

Definition str := list ascii.

(** A literal of the source. *)
Definition py (x : string) : str := list_ascii_of_string x.

Definition nl : str := ["010"%char].

Definition len (x : str) : Z := Z.of_nat (List.length x).

Definition code (c : ascii) : N := N_of_ascii c.

Definition in_range (lo hi c : ascii) : bool :=
  (code lo <=? code c)%N && (code c <=? code hi)%N.

Definition is_upper (c : ascii) : bool := in_range "A" "Z" c.
Definition is_lower (c : ascii) : bool := in_range "a" "z" c.
Definition is_alpha (c : ascii) : bool := is_upper c || is_lower c.
Definition is_digit (c : ascii) : bool := in_range "0" "9" c.

(** White space as [str.strip] and the class [\s] see it: TAB, LF, VT, FF,
    CR, the four separators FS, GS, RS, US, and the blank. *)
Definition is_space (c : ascii) : bool :=
  match code c with
  | 9 | 10 | 11 | 12 | 13 | 28 | 29 | 30 | 31 | 32 => true
  | _ => false
  end%N.

Definition to_upper (c : ascii) : ascii :=
  if is_lower c then ascii_of_N (code c - 32) else c.

Definition to_lower (c : ascii) : ascii :=
  if is_upper c then ascii_of_N (code c + 32) else c.

Definition upper (x : str) : str := map to_upper x.
Definition lower (x : str) : str := map to_lower x.

(** [x.startswith(p)] *)
Fixpoint startswith (x p : str) : bool :=
  match p, x with
  | [], _ => true
  | _ :: _, [] => false
  | a :: p', b :: x' => Ascii.eqb a b && startswith x' p'
  end.

(** Offset of the first occurrence of [sub] in [x]. *)
Fixpoint index_of (sub x : str) : option nat :=
  if startswith x sub then Some O
  else match x with
       | [] => None
       | _ :: x' => option_map S (index_of sub x')
       end.

(** [x.find(sub, start)] for [0 <= start]. *)
Definition find (x sub : str) (start : Z) : Z :=
  if len x <? start then -1
  else match index_of sub (skipn (Z.to_nat start) x) with
       | Some i => start + Z.of_nat i
       | None => -1
       end.

(** [sub in x] *)
Definition str_in (sub x : str) : bool :=
  match index_of sub x with Some _ => true | None => false end.

Fixpoint lstrip (x : str) : str :=
  match x with
  | [] => []
  | c :: x' => if is_space c then lstrip x' else x
  end.

Definition rstrip (x : str) : str := rev (lstrip (rev x)).

(** [x.strip()] *)
Definition strip (x : str) : str := rstrip (lstrip x).

(** [x.split(sep)] for a non-empty [sep]: [cur] is the piece being read
    (reversed), [skip] the number of characters of a separator still to be
    passed over. *)
Fixpoint split_go (sep : str) (skip : nat) (cur x : str) : list str :=
  match x with
  | [] => [rev cur]
  | c :: x' =>
      match skip with
      | S k => split_go sep k cur x'
      | O => if startswith x sep
             then rev cur :: split_go sep (List.length sep - 1) [] x'
             else split_go sep O (c :: cur) x'
      end
  end.

Definition split (x sep : str) : list str := split_go sep O [] x.

(** ** Exceptions *)

Inductive exn := IndexError | ValueError.

Inductive result (A : Type) :=
| Ok (a : A)
| Raise (e : exn).
Arguments Ok {A} a.
Arguments Raise {A} e.

Definition bind {A B} (m : result A) (f : A -> result B) : result B :=
  match m with
  | Ok a => f a
  | Raise e => Raise e
  end.

Notation "x <- m ;; f" := (bind m (fun x => f))
  (at level 61, m at next level, right associativity).
Notation "' p <- m ;; f" := (bind m (fun x => match x with p => f end))
  (at level 61, p pattern, m at next level, right associativity).

(** [l[i]] *)
Definition index {A} (l : list A) (i : nat) : result A :=
  match nth_error l i with
  | Some a => Ok a
  | None => Raise IndexError
  end.

(** A [for] loop whose body appends to the list it builds. *)
Fixpoint for_each {A B} (l : list A) (body : A -> result (list B))
  : result (list B) :=
  match l with
  | [] => Ok []
  | a :: l' => r <- body a ;; rs <- for_each l' body ;; Ok (r ++ rs)
  end.

(** ** Regular expressions *)

Inductive regex :=
| Eps
| Cls (p : ascii -> bool)
| Cat (r1 r2 : regex)
| Alt (r1 r2 : regex)
| Star (r : regex)
| Grp (i : nat) (r : regex).

(** The text of each group, by number; [""] for a group that has not
    matched. *)
Definition caps := nat -> str.

Definition no_caps : caps := fun _ => [].

Definition set_group (i : nat) (w : str) (c : caps) : caps :=
  fun j => if Nat.eqb j i then w else c j.

Definition cont := str -> caps -> option (caps * str).

(** A greedy repetition: [step] matches one round, [n] bounds the number of
    rounds.  As many rounds as possible are taken first and given back one
    by one; a round that consumes nothing ends the repetition. *)
Fixpoint star_rounds (step : str -> caps -> cont -> option (caps * str))
  (k : cont) (n : nat) (x : str) (c : caps) : option (caps * str) :=
  match n with
  | O => k x c
  | S n' =>
      match step x c
              (fun x1 c1 =>
                 if (List.length x1 <? List.length x)%nat
                 then star_rounds step k n' x1 c1 else None) with
      | Some res => Some res
      | None => k x c
      end
  end.

(** [rmatch r x c k]: match [r] at the head of [x], then hand what is left to
    [k]; when [k] refuses, try the next way of matching [r]. *)
Fixpoint rmatch (r : regex) (x : str) (c : caps) (k : cont)
  : option (caps * str) :=
  match r with
  | Eps => k x c
  | Cls p =>
      match x with
      | a :: x' => if p a then k x' c else None
      | [] => None
      end
  | Cat r1 r2 => rmatch r1 x c (fun x1 c1 => rmatch r2 x1 c1 k)
  | Alt r1 r2 =>
      match rmatch r1 x c k with
      | Some res => Some res
      | None => rmatch r2 x c k
      end
  | Star r1 => star_rounds (rmatch r1) k (List.length x) x c
  | Grp i r1 =>
      rmatch r1 x c
        (fun x1 c1 =>
           k x1 (set_group i (firstn (List.length x - List.length x1) x) c1))
  end.

(** A match anchored at the head of [x]: the groups and the text left. *)
Definition match_here (r : regex) (x : str) : option (caps * str) :=
  rmatch r x no_caps (fun x1 c1 => Some (c1, x1)).

(** A compiled pattern: the expression and the number of its groups. *)
Record pattern := { rx : regex; ngroups : nat }.

(** [m.groups()] *)
Definition groups (p : pattern) (c : caps) : list str :=
  map c (seq 1 (ngroups p)).

(** [re.search(p, x)]: the groups of the leftmost match. *)
Fixpoint re_search (p : pattern) (x : str) : option (list str) :=
  match match_here (rx p) x with
  | Some (c, _) => Some (groups p c)
  | None =>
      match x with
      | [] => None
      | _ :: x' => re_search p x'
      end
  end.

(** [re.findall(p, x)]: the groups of every match, left to right, a match
    starting where the previous one ended; [skip] counts the characters of
    the current match still to be passed over. *)
Fixpoint findall_go (p : pattern) (skip : nat) (x : str) : list (list str) :=
  match skip with
  | S k =>
      match x with
      | [] => []
      | _ :: x' => findall_go p k x'
      end
  | O =>
      match match_here (rx p) x with
      | Some (c, rest) =>
          groups p c ::
            match x with
            | [] => []
            | _ :: x' =>
                findall_go p (List.length x - List.length rest - 1) x'
            end
      | None =>
          match x with
          | [] => []
          | _ :: x' => findall_go p O x'
          end
      end
  end.

Definition re_findall (p : pattern) (x : str) : list (list str) :=
  findall_go p O x.

(** [re.sub(p, repl, x)] for a replacement without group references. *)
Fixpoint sub_go (p : pattern) (repl : str) (skip : nat) (x : str) : str :=
  match skip with
  | S k =>
      match x with
      | [] => []
      | _ :: x' => sub_go p repl k x'
      end
  | O =>
      match match_here (rx p) x with
      | Some (_, rest) =>
          match x with
          | [] => repl
          | a :: x' =>
              if (List.length rest <? List.length x)%nat
              then repl ++ sub_go p repl (List.length x - List.length rest - 1) x'
              else repl ++ a :: sub_go p repl O x'
          end
      | None =>
          match x with
          | [] => []
          | a :: x' => a :: sub_go p repl O x'
          end
      end
  end.

Definition re_sub (p : pattern) (repl x : str) : str := sub_go p repl O x.

(** ** The patterns of the source *)

Definition chr (a : ascii) : regex := Cls (Ascii.eqb a).
Definition not_chr (a : ascii) : regex := Cls (fun b => negb (Ascii.eqb a b)).
Definition lit (w : str) : regex := fold_right (fun a r => Cat (chr a) r) Eps w.
Definition plus (r : regex) : regex := Cat r (Star r).

(** [\s], [\d], [\d{4}], [[A-Za-z]] *)
Definition ws : regex := Cls is_space.
Definition digit : regex := Cls is_digit.
Definition digit4 : regex := Cat digit (Cat digit (Cat digit digit)).
Definition alpha : regex := Cls is_alpha.

(** [[A-Z][a-z]+(?:\s+[A-Z][a-z]+)*] *)
Definition word : regex := Cat (Cls is_upper) (plus (Cls is_lower)).
Definition title_case : regex := Cat word (Star (Cat (plus ws) word)).

(** [(20XX|\d{4})] *)
Definition year : regex := Alt (lit (py "20XX")) digit4.

Fixpoint cat (rs : list regex) : regex :=
  match rs with
  | [] => Eps
  | [r] => r
  | r :: rs' => Cat r (cat rs')
  end.

(** [([^|]+)\s*\|\s*([^(]+)\s*\(([^)]+)\)] *)
Definition pipe_pattern : pattern :=
  {| rx := cat [Grp 1 (plus (not_chr "|")); Star ws; chr "|"; Star ws;
                Grp 2 (plus (not_chr "(")); Star ws; chr "(";
                Grp 3 (plus (not_chr ")")); chr ")"];
     ngroups := 3 |}.

(** The two patterns of the date-first strategy. *)
Definition date_patterns : list pattern :=
  [ {| rx := cat [Grp 1 year; plus ws; lit (py "Present"); plus ws;
                  Grp 2 title_case; plus ws; Grp 3 title_case; plus ws;
                  Grp 4 title_case];
       ngroups := 4 |};
    {| rx := cat [Grp 1 year; plus ws; Grp 2 year; plus ws;
                  Grp 3 title_case; plus ws; Grp 4 title_case; plus ws;
                  Grp 5 title_case];
       ngroups := 5 |} ].

(** [([^,]+),\s+([^(]+)\s+([^-]+)-([^-]+)] *)
Definition pattern3 : pattern :=
  {| rx := cat [Grp 1 (plus (not_chr ",")); chr ","; plus ws;
                Grp 2 (plus (not_chr "(")); plus ws;
                Grp 3 (plus (not_chr "-")); chr "-";
                Grp 4 (plus (not_chr "-"))];
     ngroups := 4 |}.

(** [([^-]+)-\s*([^(]+)\s*\(([^-]+)-([^)]+)\)] *)
Definition pattern4 : pattern :=
  {| rx := cat [Grp 1 (plus (not_chr "-")); chr "-"; Star ws;
                Grp 2 (plus (not_chr "(")); Star ws; chr "(";
                Grp 3 (plus (not_chr "-")); chr "-";
                Grp 4 (plus (not_chr ")")); chr ")"];
     ngroups := 4 |}.

(** [([^-]+)-\s*([^-]+)] *)
Definition pattern5 : pattern :=
  {| rx := cat [Grp 1 (plus (not_chr "-")); chr "-"; Star ws;
                Grp 2 (plus (not_chr "-"))];
     ngroups := 2 |}.

(** [\s+[A-Za-z]+\s+\d{4}] *)
Definition month_year_tail : pattern :=
  {| rx := cat [plus ws; plus alpha; plus ws; digit4]; ngroups := 0 |}.

(** [[A-Za-z]+\s+20XX] and [[A-Za-z]+\s+\d{4}] *)
Definition month_20XX : regex := cat [plus alpha; plus ws; lit (py "20XX")].
Definition month_year : regex := cat [plus alpha; plus ws; digit4].

(** The three patterns of the whole-text strategy. *)
Definition job_pattern1 : pattern :=
  {| rx := cat [Grp 1 title_case; chr ","; plus ws; Grp 2 title_case; plus ws;
                Grp 3 month_20XX; Star ws; chr "-"; Star ws;
                Grp 4 (Alt month_20XX (lit (py "Current")))];
     ngroups := 4 |}.

Definition job_pattern2 : pattern :=
  {| rx := cat [Grp 1 title_case; Star ws; chr "-"; Star ws; Grp 2 title_case;
                Star ws; chr "("; Grp 3 month_year; Star ws; chr "-"; Star ws;
                lit (py "Present"); chr ")"];
     ngroups := 3 |}.

Definition job_pattern3 : pattern :=
  {| rx := cat [Grp 1 title_case; Star ws; chr "-"; Star ws; Grp 2 title_case];
     ngroups := 2 |}.

Definition job_patterns : list pattern :=
  [job_pattern1; job_pattern2; job_pattern3].

(** ** Job entries *)

Record Experience := {
  title : str;
  company : str;
  start_date : str;
  end_date : str;
  location : str;
  description : str
}.

(** ** Strategy 1: pipe format *)

Definition pipe_entry (m : list str) : result (list Experience) :=
  m0 <- index m 0 ;; m1 <- index m 1 ;; m2 <- index m 2 ;;
  let title_company := strip m0 in
  let date_range := strip m1 in
  let location := strip m2 in
  '(title, company) <-
    (if str_in (py "  ") title_company then
       let parts := split title_company (py "  ") in
       if (2 <=? List.length parts)%nat then
         p0 <- index parts 0 ;; p1 <- index parts 1 ;;
         Ok (strip p0, strip p1)
       else Ok (title_company, [])
     else Ok (title_company, [])) ;;
  '(start_date, end_date) <-
    (if str_in (py "Present") date_range then
       d0 <- index (split date_range (py "-")) 0 ;;
       Ok (strip d0, py "Present")
     else
       let dates := split date_range (py "-") in
       if (List.length dates =? 2)%nat then
         d0 <- index dates 0 ;; d1 <- index dates 1 ;;
         Ok (strip d0, strip d1)
       else Ok (date_range, [])) ;;
  Ok [ {| title := title; company := company;
          start_date := start_date; end_date := end_date;
          location := location; description := [] |} ].

Definition _extract_with_pipe_format (experience_block : str)
  : result (list Experience) :=
  let matches := re_findall pipe_pattern experience_block in
  for_each matches pipe_entry.

(** ** Strategy 2: date first *)

(** The title and the company of a date-first match: [tc] is the group read
    as the title, [co] the group after it. *)
Definition date_first_title_company (tc co : str) : result (str * str) :=
  let title_company := strip tc in
  if str_in (py "  ") title_company then
    let parts := split title_company (py "  ") in
    if (2 <=? List.length parts)%nat then
      p0 <- index parts 0 ;; p1 <- index parts 1 ;;
      Ok (strip p0, strip p1)
    else Ok (title_company, co)
  else Ok (title_company, co).

Definition date_first_entry (m : list str) : result (list Experience) :=
  if (List.length m =? 4)%nat then
    m0 <- index m 0 ;; m1 <- index m 1 ;; m2 <- index m 2 ;; m3 <- index m 3 ;;
    '(title, company) <- date_first_title_company m1 m2 ;;
    Ok [ {| title := title; company := company;
            start_date := m0; end_date := py "Present";
            location := m3; description := [] |} ]
  else if (List.length m =? 5)%nat then
    m0 <- index m 0 ;; m1 <- index m 1 ;; m2 <- index m 2 ;; m3 <- index m 3 ;;
    m4 <- index m 4 ;;
    '(title, company) <- date_first_title_company m2 m3 ;;
    Ok [ {| title := title; company := company;
            start_date := m0; end_date := m1;
            location := m4; description := [] |} ]
  else Ok [].

Definition _extract_with_date_first_format (experience_block : str)
  : result (list Experience) :=
  for_each date_patterns (fun pattern =>
    let matches := re_findall pattern experience_block in
    for_each matches date_first_entry).

(** ** Strategy 3: line by line *)

(** The bullet sign that opens a description line (outside ASCII; its
    UTF-8 bytes). *)
Definition bullet : str := ["226"; "128"; "162"]%char.

Definition months : list str :=
  map py ["January"; "February"; "March"; "April"; "May"; "June"; "July";
          "August"; "September"; "October"; "November"; "December"]%string.

(** The test that sets description lines aside. *)
Definition is_description_line (line : str) : bool :=
  startswith line bullet || startswith line (py "-") ||
  str_in (py "Developed") line || str_in (py "Built") line ||
  str_in (py "Integrated") line ||
  str_in (py "Increased") line || str_in (py "Deployed") line ||
  str_in (py "Handled") line ||
  str_in (py "Summarize") line || str_in (py "responsibilities") (lower line) ||
  str_in (py "passionate") (lower line) || str_in (py "building") (lower line) ||
  (100 <? len line).

Definition entry (t c s e : str) : Experience :=
  {| title := t; company := c; start_date := s; end_date := e;
     location := []; description := [] |}.

(** A line that matched "JobTitle, Company Date - Date". *)
Definition line_entry3 (m : list str) : result (list Experience) :=
  g1 <- index m 0 ;; g2 <- index m 1 ;; g3 <- index m 2 ;; g4 <- index m 3 ;;
  let title := strip g1 in
  let company_date := strip g2 in
  let start_date := strip g3 in
  let end_date := strip g4 in
  let title :=
    if startswith title (py "e ") then strip (skipn 2 title) else title in
  company <-
    (if str_in (py "20XX") company_date then
       c0 <- index (split company_date (py "20XX")) 0 ;; Ok (strip c0)
     else if existsb (fun month => str_in month company_date) months then
       Ok (strip (re_sub month_year_tail [] company_date))
     else Ok company_date) ;;
  if (3 <? len title) && (3 <? len company) &&
     negb (str_in (py "Summarize") company_date) &&
     negb (str_in (py "responsibilities") company_date) &&
     (len company_date <? 50)
  then Ok [entry title company start_date end_date]
  else Ok [].

(** A line that matched "JobTitle - Company (Date - Present)". *)
Definition line_entry4 (m : list str) : result (list Experience) :=
  g1 <- index m 0 ;; g2 <- index m 1 ;; g3 <- index m 2 ;; g4 <- index m 3 ;;
  let title := strip g1 in
  let company := strip g2 in
  let start_date := strip g3 in
  let end_date := strip g4 in
  let title :=
    if startswith title (py "ce: ") then strip (skipn 4 title) else title in
  if (3 <? len title) && (3 <? len company) &&
     negb (str_in (py "Developed") company) &&
     (len company <? 50)
  then Ok [entry title company start_date end_date]
  else Ok [].

(** A line that matched "JobTitle - Company". *)
Definition line_entry5 (m : list str) : result (list Experience) :=
  g1 <- index m 0 ;; g2 <- index m 1 ;;
  let title := strip g1 in
  let company := strip g2 in
  let title :=
    if startswith title (py "e: ") then strip (skipn 3 title) else title in
  if (3 <? len title) && (3 <? len company) &&
     (str_in (py "Intern") title || str_in (py "Developer") title ||
      str_in (py "Engineer") title ||
      str_in (py "Manager") title || str_in (py "Assistant") title ||
      str_in (py "Specialist") title) &&
     negb (str_in (py "Built") company) &&
     negb (str_in (py "Integrated") company) &&
     (len company <? 50)
  then Ok [entry title company [] []]
  else Ok [].

(** The body of the loop over the lines of the block. *)
Definition process_line (line : str) : result (list Experience) :=
  let line := strip line in
  match line with
  | [] => Ok []
  | _ :: _ =>
      if is_description_line line then Ok []
      else
        match re_search pattern3 line with
        | Some match3 => line_entry3 match3
        | None =>
            match re_search pattern4 line with
            | Some match4 => line_entry4 match4
            | None =>
                match re_search pattern5 line with
                | Some match5 => line_entry5 match5
                | None => Ok []
                end
            end
        end
  end.

Definition _extract_with_line_by_line_processing (experience_block : str)
  : result (list Experience) :=
  let lines := split experience_block nl in
  for_each lines process_line.

(** ** Strategy 4: the whole text *)

Definition has_role (title : str) : bool :=
  str_in (py "Intern") title || str_in (py "Developer") title ||
  str_in (py "Engineer") title || str_in (py "Manager") title.

(** [a, b, c, d = m] and [a, b = m] *)
Definition unpack4 (m : list str) : result (str * str * str * str) :=
  match m with
  | [a; b; c; d] => Ok (a, b, c, d)
  | _ => Raise ValueError
  end.

Definition unpack2 (m : list str) : result (str * str) :=
  match m with
  | [a; b] => Ok (a, b)
  | _ => Raise ValueError
  end.

Definition entire_text_entry (m : list str) : result (list Experience) :=
  if (List.length m =? 4)%nat then
    '(title, company, start_date, end_date) <- unpack4 m ;;
    if has_role title
    then Ok [entry (strip title) (strip company)
                   (strip start_date) (strip end_date)]
    else Ok []
  else if (List.length m =? 2)%nat then
    '(title, company) <- unpack2 m ;;
    if has_role title
    then Ok [entry (strip title) (strip company) [] []]
    else Ok []
  else Ok [].

(** The loop of the strategy over a list of patterns. *)
Definition scan_patterns (patterns : list pattern) (text : str)
  : result (list Experience) :=
  for_each patterns (fun pattern =>
    let matches := re_findall pattern text in
    for_each matches entire_text_entry).

Definition _extract_experience_from_entire_text (text : str)
  : result (list Experience) :=
  scan_patterns job_patterns text.

(** ** The section locator *)

Definition experience_headers : list str :=
  map py ["PROFESSIONAL EXPERIENCE"; "EXPERIENCE"; "WORK HISTORY";
          "EMPLOYMENT"; "WORK EXPERIENCE"; "EMPLOYMENT HISTORY";
          "CAREER HISTORY"; "JOB HISTORY"]%string.

Definition next_sections : list str :=
  map py ["Education"; "Skills"; "Projects"; "Certifications"]%string.

Definition job_keywords : list str :=
  map py ["manager"; "engineer"; "developer"; "intern"; "assistant";
          "specialist"; "analyst"]%string.

Definition summary_keywords : list str :=
  map py ["summary"; "passionate"; "building"; "developing";
          "experience in"]%string.

Fixpoint str_eqb (x y : str) : bool :=
  match x, y with
  | [], [] => true
  | a :: x', b :: y' => Ascii.eqb a b && str_eqb x' y'
  | _, _ => false
  end.

(** The loop over [next_sections]: the least offset at which one of them
    occurs in [after_header], [-1] when none does. *)
Definition next_section_step (after_header : str) (next_section_pos : Z)
  (section : str) : Z :=
  let section_pos := find after_header section 0 in
  if negb (section_pos =? -1) then
    if (next_section_pos =? -1) || (section_pos <? next_section_pos)
    then section_pos
    else next_section_pos
  else next_section_pos.

Definition find_next_section (after_header : str) : Z :=
  fold_left (next_section_step after_header) next_sections (-1).

(** The block that follows a header. *)
Definition section_text_of (after_header : str) : str :=
  let next_section_pos := find_next_section after_header in
  if negb (next_section_pos =? -1)
  then strip (firstn (Z.to_nat next_section_pos) after_header)
  else strip after_header.

(** [sum(1 for keyword in keywords if keyword in section_text.lower())] *)
Definition keyword_count (keywords : list str) (section_text : str) : Z :=
  Z.of_nat
    (List.length
       (filter (fun keyword => str_in keyword (lower section_text)) keywords)).

Definition section_score (header section_text : str) : Z :=
  let score := 0 in
  let score :=
    if str_eqb header (py "PROFESSIONAL EXPERIENCE") then score + 10
    else score in
  let score := if 100 <? len section_text then score + 5 else score in
  let job_keyword_count := keyword_count job_keywords section_text in
  let score := score + job_keyword_count * 2 in
  let summary_keyword_count := keyword_count summary_keywords section_text in
  let score := score - summary_keyword_count * 3 in
  let score := if len section_text <? 50 then score - 5 else score in
  score.

Record Candidate := {
  sec_header : str;
  sec_position : Z;
  sec_text : str;
  sec_score : Z
}.

(** The [while True] loop for one header, from offset [start]; [fuel]
    bounds the number of rounds. *)
Fixpoint scan_header (fuel : nat) (text header : str) (start : Z)
  : list Candidate :=
  match fuel with
  | O => []
  | S fuel' =>
      let pos := find (upper text) header start in
      if pos =? -1 then []
      else
        let after_header := skipn (Z.to_nat (pos + len header)) text in
        let section_text := section_text_of after_header in
        {| sec_header := header; sec_position := pos;
           sec_text := section_text;
           sec_score := section_score header section_text |}
        :: scan_header fuel' text header (pos + 1)
  end.

(** Every round moves [start] forward, so one round per character and a
    last one are enough. *)
Definition find_sections (text : str) : list Candidate :=
  flat_map (fun header => scan_header (S (List.length text)) text header 0)
           experience_headers.

(** [sort(key=lambda x: (x['score'], x['position']), reverse=True)]: a
    stable sort, greatest key first. *)
Definition key_lt (a b : Candidate) : bool :=
  (sec_score a <? sec_score b) ||
  ((sec_score a =? sec_score b) && (sec_position a <? sec_position b)).

Fixpoint insert_desc (a : Candidate) (l : list Candidate) : list Candidate :=
  match l with
  | [] => [a]
  | b :: l' => if key_lt a b then b :: insert_desc a l' else a :: l
  end.

Definition sort_desc (l : list Candidate) : list Candidate :=
  fold_right insert_desc [] l.

Definition potential_sections (text : str) : list Candidate :=
  sort_desc (find_sections text).

(** ** The cascade *)

Inductive Strategy := PipeFormat | DateFirst | LineByLine | EntireText.

(** A computation that records which strategies it called. *)
Definition traced (A : Type) : Type := list Strategy * result A.

Definition ret {A} (a : A) : traced A := ([], Ok a).

Definition call {A} (s : Strategy) (r : result A) : traced A := ([s], r).

Definition bindT {A B} (m : traced A) (f : A -> traced B) : traced B :=
  match m with
  | (l, Ok a) => let (l', r) := f a in (l ++ l', r)
  | (l, Raise e) => (l, Raise e)
  end.

Notation "x <~ m ;; f" := (bindT m (fun x => f))
  (at level 61, m at next level, right associativity).

Definition is_empty {A} (l : list A) : bool :=
  match l with [] => true | _ :: _ => false end.

Definition extract_experience_traced (text : str)
  : traced (list Experience) :=
  let experience : list Experience := [] in
  match potential_sections text with
  | best :: _ =>
      if 0 <? sec_score best then
        let experience_block := sec_text best in
        if negb (is_empty experience_block) then
          experience <~
            call PipeFormat (_extract_with_pipe_format experience_block) ;;
          experience <~
            (if is_empty experience
             then call DateFirst
                    (_extract_with_date_first_format experience_block)
             else ret experience) ;;
          experience <~
            (if is_empty experience
             then call LineByLine
                    (_extract_with_line_by_line_processing experience_block)
             else ret experience) ;;
          experience <~
            (if is_empty experience
             then call EntireText (_extract_experience_from_entire_text text)
             else ret experience) ;;
          ret experience
        else ret experience
      else call EntireText (_extract_experience_from_entire_text text)
  | [] => call EntireText (_extract_experience_from_entire_text text)
  end.

Definition extract_experience (text : str) : result (list Experience) :=
  snd (extract_experience_traced text).

(** The best candidate, when it is usable. *)
Definition locate (text : str) : option Candidate :=
  match potential_sections text with
  | best :: _ => if 0 <? sec_score best then Some best else None
  | [] => None
  end.

(** ** Vocabulary of the statements *)

(** [sub] occurs in [x] at offset [i]. *)
Definition occurs_at (sub x : str) (i : nat) : Prop :=
  exists a b, x = a ++ sub ++ b /\ List.length a = i.

(** The terms of the score. *)
Definition header_bonus (header : str) : Z :=
  if str_eqb header (py "PROFESSIONAL EXPERIENCE") then 10 else 0.

Definition long_bonus (section_text : str) : Z :=
  if 100 <? len section_text then 5 else 0.

Definition short_penalty (section_text : str) : Z :=
  if len section_text <? 50 then 5 else 0.

(** The key of [a] is at least the key of [b], keys [(score, position)]
    being compared as Python compares tuples. *)
Definition key_ge (a b : Candidate) : Prop :=
  sec_score b < sec_score a \/
  (sec_score b = sec_score a /\ sec_position b <= sec_position a).


(** A computation that returns, raising nothing. *)
Definition is_ok {A} (r : result A) : Prop := exists a, r = Ok a.


(** [matches r w c c']: the expression [r] matches exactly the text [w],
    taking the groups from [c] to [c']. *)
Inductive matches : regex -> str -> caps -> caps -> Prop :=
| M_Eps c : matches Eps [] c c
| M_Cls p a c : p a = true -> matches (Cls p) [a] c c
| M_Cat r1 r2 w1 w2 c c1 c2 :
    matches r1 w1 c c1 -> matches r2 w2 c1 c2 ->
    matches (Cat r1 r2) (w1 ++ w2) c c2
| M_AltL r1 r2 w c c1 : matches r1 w c c1 -> matches (Alt r1 r2) w c c1
| M_AltR r1 r2 w c c1 : matches r2 w c c1 -> matches (Alt r1 r2) w c c1
| M_StarNil r c : matches (Star r) [] c c
| M_StarCons r w1 w2 c c1 c2 :
    matches r w1 c c1 -> matches (Star r) w2 c1 c2 ->
    matches (Star r) (w1 ++ w2) c c2
| M_Grp i r w c c1 :
    matches r w c c1 -> matches (Grp i r) w c (set_group i w c1).

(** One of the next-section markers occurs in [x] at offset [i], letter
    case included. *)
Definition marker_at (x : str) (i : nat) : Prop :=
  exists marker, In marker next_sections /\ occurs_at marker x i.

(** The text that follows the occurrence of the header of a candidate. *)
Definition after_header_of (text : str) (c : Candidate) : str :=
  skipn (Z.to_nat (sec_position c + len (sec_header c))) text.

(** What the loop over the markers has established after the markers
    [done]: [pos] is the least offset of an occurrence of one of them, or
    [-1] when there is none. *)
Definition least_offset (x : str) (done : list str) (pos : Z) : Prop :=
  (pos = -1 /\ forall m i, In m done -> ~ occurs_at m x i) \/
  (exists i, pos = Z.of_nat i /\
             (exists m, In m done /\ occurs_at m x i) /\
             forall m j, In m done -> (j < i)%nat -> ~ occurs_at m x j).

(** ** Sample documents *)

(** Scenario A of the specification. *)
Definition scenario_A : str :=
  py "PROFESSIONAL EXPERIENCE" ++ nl ++
  py "Software Engineer | TechCorp (Jan 2020 - Present)" ++ nl ++
  py "EDUCATION" ++ nl ++ py "...".

(** Scenario B of the specification. *)
Definition scenario_B : str :=
  py "EXPERIENCE" ++ nl ++
  py "Data Analyst, Acme Corp January 2021 - March 2022" ++ nl ++
  py "EDUCATION".

(** Scenario C of the specification. *)
Definition scenario_C : str :=
  py "SUMMARY" ++ nl ++
  py "Passionate about building scalable systems with 5 years of experience in backend development.".




(** ** Vocabulary of the further statements *)

(** A year as the date-first patterns read it: "20XX" or four digits. *)
Definition is_year (x : str) : bool :=
  str_eqb x (py "20XX") ||
  ((List.length x =? 4)%nat && forallb is_digit x).

(** The numbers of the groups of an expression. *)
Fixpoint group_ids (r : regex) : list nat :=
  match r with
  | Eps | Cls _ => []
  | Cat r1 r2 | Alt r1 r2 => group_ids r1 ++ group_ids r2
  | Star r1 => group_ids r1
  | Grp i r1 => i :: group_ids r1
  end.

(** A text [strip] would leave as it is. *)
Definition trimmed (x : str) : Prop := strip x = x.

(** The acceptance guards common to the three line patterns. *)
Definition line_entry_sound (e : Experience) : Prop :=
  3 < len (title e) /\ 3 < len (company e) /\
  location e = [] /\ description e = [].

(** Every text matched by [r] contains the character [a]. *)
Definition needs (a : ascii) (r : regex) : Prop :=
  forall w c c', matches r w c c' -> In a w.

(** ** Cleaning of the extracted text
    (backend/utils/text_extractor.py, [TextExtractor.clean_text]) *)

(** [\w], for the characters of the ASCII range *)
Definition is_word (c : ascii) : bool :=
  is_alpha c || is_digit c || Ascii.eqb c "_".

Definition is_kept_punctuation (c : ascii) : bool :=
  Ascii.eqb c "-" || Ascii.eqb c "." || Ascii.eqb c "@" || Ascii.eqb c "(" ||
  Ascii.eqb c ")" || Ascii.eqb c "+" || Ascii.eqb c "," || Ascii.eqb c ":" ||
  Ascii.eqb c ";".

(** The class [[\w\s\n\-\.\@\(\)\+\,\:\;]] *)
Definition is_kept (c : ascii) : bool :=
  is_word c || is_space c || Ascii.eqb c "010" || is_kept_punctuation c.

(** [\s+], [\n+] and [[^\w\s\n\-\.\@\(\)\+\,\:\;]] *)
Definition ws_run : pattern := {| rx := plus ws; ngroups := 0 |}.
Definition nl_run : pattern := {| rx := plus (chr "010"); ngroups := 0 |}.
Definition special_char : pattern :=
  {| rx := Cls (fun c => negb (is_kept c)); ngroups := 0 |}.

Definition clean_text (text : str) : str :=
  if is_empty text then []
  else
    let text := re_sub ws_run (py " ") text in
    let text := re_sub nl_run nl text in
    let text := re_sub special_char [] text in
    strip text.

(** What a cleaned text is made of: word characters, blanks and the
    punctuation that is kept. *)
Definition is_clean_char (c : ascii) : bool :=
  is_word c || Ascii.eqb c " " || is_kept_punctuation c.

(** ** Sections found by header (the patterns "HEADER.*?(?=A|B|$)") *)

(** [$] without MULTILINE: the end of the text, or the place just before a
    newline that ends it. *)
Definition at_end (x : str) : bool :=
  match x with
  | [] => true
  | [c] => Ascii.eqb c "010"
  | _ => false
  end.

(** The look-ahead [(?=A|B|...|$)]. *)
Definition section_ahead (stops : list str) (x : str) : bool :=
  existsb (startswith x) stops || at_end x.

(** [.*?(?=A|B|...|$)] under DOTALL: the shortest text after which the
    look-ahead holds; any character may be passed over. *)
Fixpoint lazy_until (stops : list str) (x : str) : str :=
  if section_ahead stops x then []
  else match x with
       | [] => []
       | c :: x' => c :: lazy_until stops x'
       end.

(** [re.search("HEADER.*?(?=A|B|...|$)", x, re.DOTALL)], group 0: the
    leftmost occurrence of the header always matches, the end of the text
    being a stop. *)
Definition search_section (header : str) (stops : list str) (x : str)
  : option str :=
  match index_of header x with
  | Some i =>
      Some (header ++ lazy_until stops (skipn (i + List.length header) x))
  | None => None
  end.

(** [sep.join(l)] *)
Fixpoint join (sep : str) (l : list str) : str :=
  match l with
  | [] => []
  | [a] => a
  | a :: l' => a ++ sep ++ join sep l'
  end.

(** ** The summary
    (backend/core/resume_parser.py, [ResumeParser._extract_summary]) *)

Definition summary_stops : list str :=
  map py ["EXPERIENCE"; "EDUCATION"; "SKILLS"]%string.

Definition summary_patterns : list (str * list str) :=
  [ (py "SUMMARY", summary_stops); (py "OBJECTIVE", summary_stops);
    (py "PROFILE", summary_stops); (py "ABOUT", summary_stops) ].

(** The lines after the header line, stripped, the empty ones left out. *)
Definition summary_of_section (summary_text : str) : str :=
  let lines := tl (split summary_text nl) in
  join nl (map strip
             (filter (fun line => negb (is_empty (strip line))) lines)).

(** The loop over the patterns, on the upper-cased text. *)
Fixpoint summary_from_patterns (patterns : list (str * list str))
  (upper_text : str) : option str :=
  match patterns with
  | [] => None
  | (header, stops) :: rest =>
      match search_section header stops upper_text with
      | Some summary_text =>
          let summary := summary_of_section summary_text in
          if negb (is_empty summary) then Some (firstn 500 summary)
          else summary_from_patterns rest upper_text
      | None => summary_from_patterns rest upper_text
      end
  end.

Definition _extract_summary (text : str) : option str :=
  match summary_from_patterns summary_patterns (upper text) with
  | Some summary => Some summary
  | None =>
      let paragraphs := split text (nl ++ nl) in
      match paragraphs with
      | first :: _ =>
          if 50 <? len first then Some (firstn 500 first) else None
      | [] => None
      end
  end.

(** ** Education
    (backend/core/nlp_processor.py, [NLPProcessor.extract_education]) *)

(** An [Education()] object; only [degree] is ever set. *)
Record Education := {
  degree : option str;
  institution : option str;
  edu_location : option str;
  graduation_date : option str;
  gpa : option str;
  field_of_study : option str
}.

(** A character and a literal under [re.IGNORECASE], read against ASCII
    text: the two cases of a letter, any other character itself. *)
Definition ichr (a : ascii) : regex :=
  Cls (fun c => Ascii.eqb (to_lower c) (to_lower a)).
Definition ilit (w : str) : regex :=
  fold_right (fun a r => Cat (ichr a) r) Eps w.

(** [.] without DOTALL *)
Definition any_but_newline : regex :=
  Cls (fun c => negb (Ascii.eqb c "010")).

(** [r1|r2|...] *)
Fixpoint alt (rs : list regex) : regex :=
  match rs with
  | [] => Cls (fun _ => false)
  | [r] => r
  | r :: rs' => Alt r (alt rs')
  end.

Definition degree_words : list str :=
  map py ["Bachelor"; "Master"; "PhD"; "B.S."; "M.S."; "B.A."; "M.A.";
          "B.Tech"; "M.Tech"]%string.

Definition diploma_words : list str :=
  map py ["Diploma"; "Certificate"]%string.

(** [(w1|w2|...).*] under IGNORECASE *)
Definition degree_pattern (names : list str) : pattern :=
  {| rx := Cat (Grp 1 (alt (map ilit names))) (Star any_but_newline);
     ngroups := 1 |}.

Definition degree_patterns : list pattern :=
  [degree_pattern degree_words; degree_pattern diploma_words].

(** [re.findall] for a pattern with one group: the texts of that group. *)
Definition re_findall_group (p : pattern) (x : str) : list str :=
  map (fun m => hd [] m) (re_findall p x).

Definition education_stops : list str :=
  map py ["EXPERIENCE"; "SKILLS"; "PROJECTS"]%string.

Definition education_patterns : list (str * list str) :=
  [ (py "EDUCATION", education_stops); (py "ACADEMIC", education_stops) ].

(** The loop that looks for the section: group 0 of the first pattern that
    matches, the empty text when none does. *)
Fixpoint first_section (patterns : list (str * list str)) (x : str) : str :=
  match patterns with
  | [] => []
  | (header, stops) :: rest =>
      match search_section header stops x with
      | Some found => found
      | None => first_section rest x
      end
  end.

Definition new_education (d : str) : Education :=
  {| degree := Some d; institution := None; edu_location := None;
     graduation_date := None; gpa := None; field_of_study := None |}.

Definition extract_education (text : str) : list Education :=
  let education_text := first_section education_patterns (upper text) in
  if negb (is_empty education_text) then
    flat_map (fun pattern =>
                map (fun m => new_education (strip m))
                    (re_findall_group pattern education_text))
             degree_patterns
  else [].

(** ** The name of the candidate
    (backend/core/nlp_processor.py, [NLPProcessor.extract_contact_info],
    the loop over the first lines) *)

(** [x.split()]: the words between runs of white space. *)
Fixpoint words_go (cur x : str) : list str :=
  match x with
  | [] => if is_empty cur then [] else [rev cur]
  | c :: x' =>
      if is_space c
      then if is_empty cur then words_go [] x' else rev cur :: words_go [] x'
      else words_go (c :: cur) x'
  end.

Definition words (x : str) : list str := words_go [] x.

(** The test a line must pass to be taken as the name. *)
Definition is_name_line (line : str) : bool :=
  negb (is_empty line) && negb (existsb is_digit line) &&
  (List.length (words line) <=? 4)%nat.

(** The loop, with its [break]. *)
Fixpoint first_name_line (lines : list str) : option str :=
  match lines with
  | [] => None
  | line :: rest =>
      let line := strip line in
      if is_name_line line then Some line else first_name_line rest
  end.

Definition extract_name (text : str) : option str :=
  let lines := split text nl in
  first_name_line (firstn 5 lines).

(** A character of the ASCII range. *)
Definition is_ascii (c : ascii) : bool := (code c <? 128)%N.

(** An upper-case heading after a case-exact marker, and one that a
    case-exact marker cuts. *)
Definition heading_after_marker : str :=
  py "EXPERIENCE foo Skills bar EDUCATION".

Definition heading_cut_by_marker : str := py "EXPERIENCE x SKILLSkills".

(** * Properties of the model *)

(** ** The primitives on small inputs *)

Example split_double_blank :
  split (py "a   b--c") (py "  ") = [py "a"; py " b--c"].
Proof. reflexivity. Qed.

Example split_dash :
  split (py "a-b--c-") (py "-") = [py "a"; py "b"; []; py "c"; []].
Proof. reflexivity. Qed.

Example split_nothing : split [] nl = [[]].
Proof. reflexivity. Qed.

Example strip_both_ends : strip (nl ++ py "  a b " ++ nl) = py "a b".
Proof. reflexivity. Qed.

Example find_not_before_start : find (py "abcabc") (py "a") 1 = 3.
Proof. reflexivity. Qed.

Example find_past_the_end : find (py "abc") (py "c") 3 = -1.
Proof. reflexivity. Qed.

Example upper_mixed : upper (py "Work History 2020") = py "WORK HISTORY 2020".
Proof. reflexivity. Qed.

Example findall_pipe_line :
  re_findall pipe_pattern
    (py "Software Engineer | TechCorp (Jan 2020 - Present)")
  = [[py "Software Engineer "; py "TechCorp "; py "Jan 2020 - Present"]].
Proof. vm_compute. reflexivity. Qed.

Example findall_two_matches :
  re_findall job_pattern3 (py "Web Developer - Acme; Data Engineer-Initech Labs")
  = [[py "Web Developer"; py "Acme"]; [py "Data Engineer"; py "Initech Labs"]].
Proof. vm_compute. reflexivity. Qed.

Example sub_month_year :
  re_sub month_year_tail [] (py "Acme Corp January 2021 and  March 1999x")
  = py "Acme Corp andx".
Proof. vm_compute. reflexivity. Qed.

Example sort_is_stable_and_descending :
  map sec_position
    (sort_desc
       [ {| sec_header := []; sec_position := 0; sec_text := []; sec_score := 1 |};
         {| sec_header := []; sec_position := 5; sec_text := []; sec_score := 1 |};
         {| sec_header := []; sec_position := 2; sec_text := []; sec_score := 7 |};
         {| sec_header := []; sec_position := 9; sec_text := []; sec_score := 0 |} ])
  = [2; 5; 0; 9].
Proof. reflexivity. Qed.

(** ** Occurrences of a substring *)

Lemma startswith_app (p x : str) : startswith (p ++ x) p = true.
Proof.
  induction p as [|a p IH]; simpl.
  - destruct x; reflexivity.
  - rewrite Ascii.eqb_refl. exact IH.
Qed.

Lemma startswith_inv (x p : str) :
  startswith x p = true -> exists r, x = p ++ r.
Proof.
  revert x. induction p as [|a p IH]; intros x H.
  - exists x. reflexivity.
  - destruct x as [|b x]; simpl in H; [discriminate|].
    apply andb_true_iff in H. destruct H as [Hab Hp].
    apply Ascii.eqb_eq in Hab. subst b.
    destruct (IH _ Hp) as [r ->]. exists r. reflexivity.
Qed.

Lemma occurs_at_0 (sub x : str) :
  occurs_at sub x 0 <-> startswith x sub = true.
Proof.
  split.
  - intros (a & b & -> & Ha). destruct a; [|discriminate].
    simpl. apply startswith_app.
  - intros H. destruct (startswith_inv _ _ H) as [r ->].
    exists [], r. split; reflexivity.
Qed.

Lemma occurs_at_S (sub : str) (c : ascii) (x : str) (i : nat) :
  occurs_at sub (c :: x) (S i) <-> occurs_at sub x i.
Proof.
  split.
  - intros (a & b & E & Ha). destruct a as [|a0 a]; [discriminate|].
    simpl in E. injection E as _ E. simpl in Ha. injection Ha as Ha.
    exists a, b. split; assumption.
  - intros (a & b & -> & Ha). exists (c :: a), b. split.
    + reflexivity.
    + simpl. now rewrite Ha.
Qed.

Lemma index_of_unfold (sub x : str) :
  index_of sub x =
  if startswith x sub then Some O
  else match x with
       | [] => None
       | _ :: x' => option_map S (index_of sub x')
       end.
Proof. destruct x; reflexivity. Qed.

(** [index_of] finds the first occurrence. *)
Lemma index_of_Some (sub x : str) (i : nat) :
  index_of sub x = Some i ->
  occurs_at sub x i /\ forall j, (j < i)%nat -> ~ occurs_at sub x j.
Proof.
  revert i. induction x as [|c x IH]; intros i H;
    rewrite index_of_unfold in H;
    destruct (startswith _ sub) eqn:E.
  - injection H as <-. split; [now apply occurs_at_0 | intros j Hj; lia].
  - discriminate.
  - injection H as <-. split; [now apply occurs_at_0 | intros j Hj; lia].
  - destruct (index_of sub x) as [n|] eqn:E2; [|discriminate].
    simpl in H. injection H as <-.
    destruct (IH n eq_refl) as [Hocc Hmin]. split.
    + now apply occurs_at_S.
    + intros [|j] Hj Hj'.
      * apply occurs_at_0 in Hj'. congruence.
      * apply occurs_at_S in Hj'. apply (Hmin j); [lia | assumption].
Qed.

Lemma index_of_None (sub x : str) :
  index_of sub x = None -> forall j, ~ occurs_at sub x j.
Proof.
  induction x as [|c x IH]; intros H j Hj;
    rewrite index_of_unfold in H;
    destruct (startswith _ sub) eqn:E; try discriminate.
  - destruct Hj as (a & b & E' & Ha).
    destruct a; [|discriminate]. subst j.
    assert (occurs_at sub [] 0) as H0 by (exists [], b; auto).
    apply occurs_at_0 in H0. congruence.
  - destruct (index_of sub x) eqn:E2; [discriminate|].
    destruct j as [|j].
    + apply occurs_at_0 in Hj. congruence.
    + apply occurs_at_S in Hj. exact (IH eq_refl j Hj).
Qed.

Lemma str_in_true_iff (sub x : str) :
  str_in sub x = true <-> exists a b, x = a ++ sub ++ b.
Proof.
  unfold str_in. split.
  - destruct (index_of sub x) as [i|] eqn:E; [|discriminate].
    intros _. destruct (index_of_Some _ _ _ E) as [(a & b & Hx & _) _].
    now exists a, b.
  - intros (a & b & Hx).
    destruct (index_of sub x) eqn:E; [reflexivity|].
    exfalso. apply (index_of_None _ _ E (List.length a)).
    now exists a, b.
Qed.

Lemma str_in_app_l (sub x y : str) :
  str_in sub x = true -> str_in sub (x ++ y) = true.
Proof.
  intros H. apply str_in_true_iff in H. destruct H as (a & b & ->).
  apply str_in_true_iff. exists a, (b ++ y).
  now rewrite <- !app_assoc.
Qed.


Lemma lower_app (x y : str) : lower (x ++ y) = lower x ++ lower y.
Proof. apply map_app. Qed.


Lemma len_nonneg (x : str) : 0 <= len x.
Proof. unfold len. lia. Qed.

(** ** The score of a block *)

Lemma section_score_sum (header section_text : str) :
  section_score header section_text =
  header_bonus header + long_bonus section_text
  + 2 * keyword_count job_keywords section_text
  - 3 * keyword_count summary_keywords section_text
  - short_penalty section_text.
Proof.
  unfold section_score, header_bonus, long_bonus, short_penalty.
  destruct (str_eqb _ _), (100 <? _), (_ <? 50); lia.
Qed.

Lemma keyword_count_bounds (keywords : list str) (x : str) :
  0 <= keyword_count keywords x <= Z.of_nat (List.length keywords).
Proof.
  unfold keyword_count. split; [lia|].
  apply inj_le. apply filter_length_le.
Qed.

Lemma filter_length_mono {A} (f g : A -> bool) (l : list A) :
  (forall a, In a l -> f a = true -> g a = true) ->
  (List.length (filter f l) <= List.length (filter g l))%nat.
Proof.
  induction l as [|a l IH]; intros H; simpl; [lia|].
  assert (List.length (filter f l) <= List.length (filter g l))%nat as IH'
    by (apply IH; intros; apply H; simpl; auto).
  destruct (f a) eqn:Ef.
  - rewrite (H a (or_introl eq_refl) Ef). simpl. lia.
  - destruct (g a); simpl; lia.
Qed.


(** Appending text never hides a keyword and reveals the appended one. *)
Lemma keyword_count_app_mono (keywords : list str) (x w : str) :
  keyword_count keywords x <= keyword_count keywords (x ++ w).
Proof.
  unfold keyword_count. apply inj_le. apply filter_length_mono.
  intros k _ Hk. rewrite lower_app. now apply str_in_app_l.
Qed.







(** ** The order of the candidates *)

Lemma key_lt_spec (a b : Candidate) :
  key_lt a b = true <->
  sec_score a < sec_score b \/
  (sec_score a = sec_score b /\ sec_position a < sec_position b).
Proof.
  unfold key_lt.
  rewrite orb_true_iff, andb_true_iff, !Z.ltb_lt, Z.eqb_eq. tauto.
Qed.


Lemma key_ge_trans (a b c : Candidate) : key_ge a b -> key_ge b c -> key_ge a c.
Proof. unfold key_ge. lia. Qed.

Lemma key_lt_ge (a b : Candidate) : key_lt a b = true -> key_ge b a.
Proof. rewrite key_lt_spec. unfold key_ge. lia. Qed.

Lemma key_nlt_ge (a b : Candidate) : key_lt a b = false -> key_ge a b.
Proof.
  intros H. unfold key_ge.
  destruct (Z_lt_ge_dec (sec_score b) (sec_score a)) as [|Hs]; [now left|].
  destruct (Z.eq_dec (sec_score b) (sec_score a)) as [He|Hn].
  - right. split; [exact He|].
    destruct (Z_lt_ge_dec (sec_position a) (sec_position b)) as [Hp|Hp]; [|lia].
    assert (key_lt a b = true) by (apply key_lt_spec; lia). congruence.
  - assert (key_lt a b = true) by (apply key_lt_spec; lia). congruence.
Qed.

Lemma insert_desc_perm (a : Candidate) (l : list Candidate) :
  Permutation (insert_desc a l) (a :: l).
Proof.
  induction l as [|b l IH]; simpl.
  - apply Permutation_refl.
  - destruct (key_lt a b).
    + eapply perm_trans; [apply perm_skip, IH | apply perm_swap].
    + apply Permutation_refl.
Qed.

Lemma sort_desc_perm (l : list Candidate) : Permutation (sort_desc l) l.
Proof.
  induction l as [|a l IH]; simpl.
  - apply perm_nil.
  - eapply perm_trans; [apply insert_desc_perm | apply perm_skip, IH].
Qed.




(** [find] answers an offset at which the text searched for occurs. *)
Lemma find_occurs (x sub : str) (start : Z) :
  0 <= start -> find x sub start <> -1 ->
  start <= find x sub start /\
  occurs_at sub x (Z.to_nat (find x sub start)).
Proof.
  intros Hs. unfold find, len.
  destruct (Z.of_nat (List.length x) <? start) eqn:E; [congruence|].
  apply Z.ltb_ge in E.
  destruct (index_of sub (skipn (Z.to_nat start) x)) as [i|] eqn:Ei;
    [|congruence].
  intros _. split; [lia|].
  destruct (index_of_Some _ _ _ Ei) as [(a & b & Hx & La) _].
  exists (firstn (Z.to_nat start) x ++ a), b. split.
  - rewrite <- app_assoc, <- Hx. symmetry. apply firstn_skipn.
  - rewrite length_app, length_firstn, La. lia.
Qed.

(** The position of a candidate is an offset at which its header occurs in
    the upper-cased text. *)
Lemma scan_header_position (text header : str) (fuel : nat) :
  forall start c,
    0 <= start ->
    In c (scan_header fuel text header start) ->
    sec_header c = header /\
    occurs_at header (upper text) (Z.to_nat (sec_position c)).
Proof.
  induction fuel as [|fuel IH]; intros start c Hs H; simpl in H; [destruct H|].
  destruct (find (upper text) header start =? -1) eqn:E; [destruct H|].
  apply Z.eqb_neq in E.
  destruct (find_occurs (upper text) header start Hs E) as [Hle Hocc].
  destruct H as [<-|H].
  - simpl. split; [reflexivity | exact Hocc].
  - apply (IH (find (upper text) header start + 1)); [lia | exact H].
Qed.

Lemma find_sections_position (text : str) (c : Candidate) :
  In c (find_sections text) ->
  In (sec_header c) experience_headers /\
  occurs_at (sec_header c) (upper text) (Z.to_nat (sec_position c)).
Proof.
  unfold find_sections. intros H. apply in_flat_map in H.
  destruct H as (header & Hh & H).
  apply scan_header_position in H; [|lia].
  destruct H as [-> Hocc]. now split.
Qed.



(** What [locate] answers is the head of the sorted candidates. *)
Lemma locate_Some (text : str) (best : Candidate) :
  locate text = Some best <->
  exists rest, potential_sections text = best :: rest /\ 0 < sec_score best.
Proof.
  unfold locate. destruct (potential_sections text) as [|b rest].
  - split; [discriminate | intros (r & H & _); discriminate].
  - destruct (0 <? sec_score b) eqn:E.
    + apply Z.ltb_lt in E. split.
      * intros H. injection H as <-. now exists rest.
      * intros (r & H & _). injection H as -> _. reflexivity.
    + apply Z.ltb_ge in E. split; [discriminate|].
      intros (r & H & Hpos). injection H as -> _. lia.
Qed.

(** ** No strategy raises *)

Lemma is_ok_Ok {A} (a : A) : is_ok (Ok a).
Proof. now exists a. Qed.

Lemma is_ok_bind {A B} (m : result A) (f : A -> result B) :
  is_ok m -> (forall a, is_ok (f a)) -> is_ok (bind m f).
Proof. intros [a ->] H. apply H. Qed.

Lemma index_ok {A} (l : list A) (i : nat) :
  (i < List.length l)%nat -> is_ok (index l i).
Proof.
  intros H. unfold index.
  destruct (nth_error l i) eqn:E; [apply is_ok_Ok|].
  apply nth_error_None in E. lia.
Qed.

Lemma for_each_ok {A B} (l : list A) (body : A -> result (list B)) :
  (forall a, In a l -> is_ok (body a)) -> is_ok (for_each l body).
Proof.
  induction l as [|a l IH]; intros H; simpl.
  - apply is_ok_Ok.
  - apply is_ok_bind; [apply H; now left|]. intros r.
    apply is_ok_bind; [apply IH; intros; apply H; now right|]. intros rs.
    apply is_ok_Ok.
Qed.

Lemma groups_length (p : pattern) (c : caps) :
  List.length (groups p c) = ngroups p.
Proof. unfold groups. now rewrite length_map, length_seq. Qed.

(** A match of a pattern has one text per group. *)
Lemma findall_go_length (p : pattern) (x : str) :
  forall skip m, In m (findall_go p skip x) -> List.length m = ngroups p.
Proof.
  induction x as [|a x IH]; intros [|k] m; simpl.
  - destruct (match_here (rx p) []) as [[c rest]|]; simpl.
    + intros [<-|[]]. apply groups_length.
    + intros [].
  - intros [].
  - destruct (match_here (rx p) (a :: x)) as [[c rest]|]; simpl.
    + intros [<-|H]; [apply groups_length | eapply IH; eassumption].
    + apply IH.
  - apply IH.
Qed.

Lemma re_findall_length (p : pattern) (x : str) (m : list str) :
  In m (re_findall p x) -> List.length m = ngroups p.
Proof. apply findall_go_length. Qed.

Lemma re_search_length (p : pattern) (x : str) (m : list str) :
  re_search p x = Some m -> List.length m = ngroups p.
Proof.
  induction x as [|a x IH]; simpl;
    destruct (match_here (rx p) _) as [[c rest]|]; intros H;
    try (injection H as <-; apply groups_length); try discriminate.
  now apply IH.
Qed.

Lemma split_go_cons (sep : str) (skip : nat) (cur : str) (c : ascii) (x : str) :
  split_go sep skip cur (c :: x) =
  match skip with
  | S k => split_go sep k cur x
  | O => if startswith (c :: x) sep
         then rev cur :: split_go sep (List.length sep - 1) [] x
         else split_go sep O (c :: cur) x
  end.
Proof. reflexivity. Qed.

(** [split] always answers at least one piece. *)
Lemma split_go_length (sep : str) (x : str) :
  forall skip cur, (0 < List.length (split_go sep skip cur x))%nat.
Proof.
  induction x as [|a x IH]; intros skip cur.
  - simpl. lia.
  - rewrite split_go_cons. destruct skip; [|apply IH].
    destruct (startswith (a :: x) sep); [simpl; lia | apply IH].
Qed.

Lemma split_first_ok (x sep : str) : is_ok (index (split x sep) 0).
Proof. apply index_ok. apply split_go_length. Qed.

Ltac ok_index :=
  apply index_ok;
  repeat match goal with
         | H : (_ <=? _)%nat = true |- _ => apply Nat.leb_le in H
         | H : (_ =? _)%nat = true |- _ => apply Nat.eqb_eq in H
         end;
  lia.

Ltac ok_step :=
  match goal with
  | |- is_ok (Ok _) => apply is_ok_Ok
  | |- is_ok (index (split _ _) 0) => apply split_first_ok
  | |- is_ok (index _ _) => ok_index
  | |- is_ok (bind _ _) => apply is_ok_bind; [|intros ?]
  | |- is_ok (if ?b then _ else _) => destruct b eqn:?
  | |- is_ok (match ?p with (_, _) => _ end) => destruct p
  | |- is_ok (match ?p with Some _ => _ | None => _ end) => destruct p eqn:?
  | |- is_ok (for_each _ _) => apply for_each_ok; intros ? ?
  end.

Lemma pipe_entry_ok (m : list str) :
  List.length m = 3%nat -> is_ok (pipe_entry m).
Proof. intros H. unfold pipe_entry. cbv zeta. repeat ok_step. Qed.

Lemma date_first_title_company_ok (tc co : str) :
  is_ok (date_first_title_company tc co).
Proof. unfold date_first_title_company. cbv zeta. repeat ok_step. Qed.

Lemma date_first_entry_ok (m : list str) : is_ok (date_first_entry m).
Proof.
  unfold date_first_entry.
  repeat first [apply date_first_title_company_ok | ok_step].
Qed.

Lemma line_entry3_ok (m : list str) :
  List.length m = 4%nat -> is_ok (line_entry3 m).
Proof. intros H. unfold line_entry3. cbv zeta. repeat ok_step. Qed.

Lemma line_entry4_ok (m : list str) :
  List.length m = 4%nat -> is_ok (line_entry4 m).
Proof. intros H. unfold line_entry4. cbv zeta. repeat ok_step. Qed.

Lemma line_entry5_ok (m : list str) :
  List.length m = 2%nat -> is_ok (line_entry5 m).
Proof. intros H. unfold line_entry5. cbv zeta. repeat ok_step. Qed.

Lemma process_line_ok (line : str) : is_ok (process_line line).
Proof.
  unfold process_line. cbv zeta.
  destruct (strip line) as [|a l]; [apply is_ok_Ok|].
  destruct (is_description_line (a :: l)); [apply is_ok_Ok|].
  destruct (re_search pattern3 (a :: l)) eqn:E3.
  { apply line_entry3_ok. apply (re_search_length _ _ _ E3). }
  destruct (re_search pattern4 (a :: l)) eqn:E4.
  { apply line_entry4_ok. apply (re_search_length _ _ _ E4). }
  destruct (re_search pattern5 (a :: l)) eqn:E5.
  { apply line_entry5_ok. apply (re_search_length _ _ _ E5). }
  apply is_ok_Ok.
Qed.

Lemma entire_text_entry_ok (m : list str) : is_ok (entire_text_entry m).
Proof.
  unfold entire_text_entry.
  destruct (List.length m =? 4)%nat eqn:E4.
  - apply Nat.eqb_eq in E4.
    destruct m as [|a [|b [|c [|d [|e m]]]]]; try discriminate.
    simpl. destruct (has_role a); apply is_ok_Ok.
  - destruct (List.length m =? 2)%nat eqn:E2; [|apply is_ok_Ok].
    apply Nat.eqb_eq in E2.
    destruct m as [|a [|b [|c m]]]; try discriminate.
    simpl. destruct (has_role a); apply is_ok_Ok.
Qed.

Lemma pipe_format_ok (block : str) : is_ok (_extract_with_pipe_format block).
Proof.
  unfold _extract_with_pipe_format. cbv zeta.
  apply for_each_ok. intros m Hm. apply pipe_entry_ok.
  apply (re_findall_length _ _ _ Hm).
Qed.

Lemma date_first_ok (block : str) :
  is_ok (_extract_with_date_first_format block).
Proof.
  unfold _extract_with_date_first_format.
  apply for_each_ok. intros p _. cbv zeta.
  apply for_each_ok. intros m _. apply date_first_entry_ok.
Qed.

Lemma line_by_line_ok (block : str) :
  is_ok (_extract_with_line_by_line_processing block).
Proof.
  unfold _extract_with_line_by_line_processing. cbv zeta.
  apply for_each_ok. intros l _. apply process_line_ok.
Qed.

Lemma scan_patterns_ok (patterns : list pattern) (text : str) :
  is_ok (scan_patterns patterns text).
Proof.
  unfold scan_patterns.
  apply for_each_ok. intros p _. cbv zeta.
  apply for_each_ok. intros m _. apply entire_text_entry_ok.
Qed.

Lemma entire_text_ok (text : str) :
  is_ok (_extract_experience_from_entire_text text).
Proof. apply scan_patterns_ok. Qed.

(** ** The loop over the occurrences of a header *)

Lemma find_from (x sub : str) (start : Z) :
  find x sub start = -1 \/ start <= find x sub start.
Proof.
  unfold find. destruct (len x <? start); [now left|].
  destruct (index_of sub _); [right; lia | now left].
Qed.

Lemma find_past_end (x sub : str) (start : Z) :
  len x < start -> find x sub start = -1.
Proof.
  intros H. unfold find. apply Z.ltb_lt in H. now rewrite H.
Qed.

Lemma len_upper (x : str) : len (upper x) = len x.
Proof. unfold len, upper. now rewrite length_map. Qed.

(** Once the fuel exceeds the number of characters left, more fuel changes
    nothing: the bound of [find_sections] cuts no round short. *)
Lemma scan_header_fuel (text header : str) (fuel : nat) :
  forall start,
    len text - start < Z.of_nat fuel ->
    scan_header (S fuel) text header start = scan_header fuel text header start.
Proof.
  induction fuel as [|fuel IH]; intros start H.
  - simpl. rewrite find_past_end; [reflexivity|]. rewrite len_upper. lia.
  - change (scan_header (S (S fuel)) text header start)
      with (let pos := find (upper text) header start in
            if pos =? -1 then []
            else
              let after_header := skipn (Z.to_nat (pos + len header)) text in
              let section_text := section_text_of after_header in
              {| sec_header := header; sec_position := pos;
                 sec_text := section_text;
                 sec_score := section_score header section_text |}
              :: scan_header (S fuel) text header (pos + 1)).
    change (scan_header (S fuel) text header start)
      with (let pos := find (upper text) header start in
            if pos =? -1 then []
            else
              let after_header := skipn (Z.to_nat (pos + len header)) text in
              let section_text := section_text_of after_header in
              {| sec_header := header; sec_position := pos;
                 sec_text := section_text;
                 sec_score := section_score header section_text |}
              :: scan_header fuel text header (pos + 1)).
    cbv zeta.
    destruct (find_from (upper text) header start) as [E|E].
    + rewrite E. reflexivity.
    + destruct (find (upper text) header start =? -1); [reflexivity|].
      f_equal. apply IH. lia.
Qed.

Lemma scan_header_enough (text header : str) (extra : nat) :
  scan_header (extra + S (List.length text)) text header 0
  = scan_header (S (List.length text)) text header 0.
Proof.
  induction extra as [|extra IH]; [reflexivity|].
  rewrite <- IH. simpl Nat.add. apply scan_header_fuel. unfold len. lia.
Qed.

(** ** The cascade *)

Lemma located_run (text : str) (best : Candidate) :
  locate text = Some best ->
  extract_experience_traced text =
  if negb (is_empty (sec_text best)) then
    experience <~
      call PipeFormat (_extract_with_pipe_format (sec_text best)) ;;
    experience <~
      (if is_empty experience
       then call DateFirst (_extract_with_date_first_format (sec_text best))
       else ret experience) ;;
    experience <~
      (if is_empty experience
       then call LineByLine
              (_extract_with_line_by_line_processing (sec_text best))
       else ret experience) ;;
    experience <~
      (if is_empty experience
       then call EntireText (_extract_experience_from_entire_text text)
       else ret experience) ;;
    ret experience
  else ret [].
Proof.
  intros H. apply locate_Some in H. destruct H as (rest & Hsort & Hpos).
  unfold extract_experience_traced. rewrite Hsort.
  apply Z.ltb_lt in Hpos. rewrite Hpos. reflexivity.
Qed.

Lemma not_located_run (text : str) :
  locate text = None ->
  extract_experience_traced text =
  call EntireText (_extract_experience_from_entire_text text).
Proof.
  unfold locate, extract_experience_traced.
  destruct (potential_sections text) as [|b rest]; [reflexivity|].
  destruct (0 <? sec_score b); [discriminate | reflexivity].
Qed.


Lemma located_run_ok (text : str) (best : Candidate) :
  locate text = Some best -> is_ok (extract_experience text).
Proof.
  intros Hloc. unfold extract_experience. rewrite (located_run _ _ Hloc).
  destruct (negb (is_empty (sec_text best))); [|apply is_ok_Ok].
  destruct (pipe_format_ok (sec_text best)) as [p ->].
  destruct p as [|e p]; simpl; [|apply is_ok_Ok].
  destruct (date_first_ok (sec_text best)) as [d ->].
  destruct d as [|e d]; simpl; [|apply is_ok_Ok].
  destruct (line_by_line_ok (sec_text best)) as [l ->].
  destruct l as [|e l]; simpl; [|apply is_ok_Ok].
  destruct (entire_text_ok text) as [f ->].
  destruct f as [|e f]; simpl; apply is_ok_Ok.
Qed.








(** C2.  On every input [extract_experience] returns a (finite) sequence of
    entries and raises nothing, and so does each of the four strategies on
    every text: a pattern that does not match contributes no entry.  On the
    empty string the result is the empty sequence. *)
Theorem extract_experience_never_raises (text : str) :
  (exists entries, extract_experience text = Ok entries) /\
  (exists entries, _extract_with_pipe_format text = Ok entries) /\
  (exists entries, _extract_with_date_first_format text = Ok entries) /\
  (exists entries, _extract_with_line_by_line_processing text = Ok entries) /\
  (exists entries, _extract_experience_from_entire_text text = Ok entries) /\
  extract_experience [] = Ok [].
Proof.
  split; [|split; [apply pipe_format_ok|]; split; [apply date_first_ok|];
           split; [apply line_by_line_ok|]; split; [apply entire_text_ok|];
           reflexivity].
  destruct (locate text) as [best|] eqn:Hloc.
  - exact (located_run_ok text best Hloc).
  - unfold extract_experience. rewrite (not_located_run _ Hloc).
    apply entire_text_ok.
Qed.

(** ** The scenarios of the specification *)

(** C1 (as amended).  On scenario A the pipe-format strategy, the only one
    attempted, gives exactly one entry: the text before the bar is the
    title, the company is empty, the text between the bar and the
    parenthesis is read as the date range (so the start date is "TechCorp"
    and the end date is empty), and the parenthesized text is the
    location. *)
Theorem scenario_A_entry :
  extract_experience_traced scenario_A =
  ([PipeFormat],
   Ok [ {| title := py "Software Engineer"; company := [];
           start_date := py "TechCorp"; end_date := [];
           location := py "Jan 2020 - Present"; description := [] |} ]).
Proof. vm_compute. reflexivity. Qed.

(** C1, the claim as written, fails: the entry returned on scenario A is
    not the one the claim describes. *)
Lemma scenario_A_not_as_claimed :
  ~ exists e,
      extract_experience scenario_A = Ok [e] /\
      title e = py "Software Engineer" /\ company e = py "TechCorp" /\
      start_date e = py "Jan 2020" /\ end_date e = py "Present" /\
      location e = [].
Proof.
  intros (e & H & _ & Hc & _). vm_compute in H. injection H as <-.
  discriminate Hc.
Qed.

(** C5, what the code does on scenario B: the third strategy's first
    pattern gives one entry, whose company keeps the month and whose start
    date is the year alone. *)
Theorem scenario_B_entry :
  re_search pattern3 (py "Data Analyst, Acme Corp January 2021 - March 2022")
  = Some [py "Data Analyst"; py "Acme Corp January"; py "2021 ";
          py " March 2022"] /\
  extract_experience_traced scenario_B =
  ([PipeFormat; DateFirst; LineByLine],
   Ok [ {| title := py "Data Analyst"; company := py "Acme Corp January";
           start_date := py "2021"; end_date := py "March 2022";
           location := []; description := [] |} ]).
Proof. split; vm_compute; reflexivity. Qed.

(** C8 (as amended).  Scenario C has a single candidate, the text after the
    word "experience": "in backend development.".  It contains no summary
    keyword ("experience in" straddles the header and is not in the block);
    its score is -5, the penalty of a block shorter than 50 characters.
    Locating fails and [extract_experience] returns what the whole-text
    strategy gives on the full input, the empty sequence. *)
Theorem scenario_C_falls_back :
  find_sections scenario_C =
  [ {| sec_header := py "EXPERIENCE"; sec_position := 67;
       sec_text := py "in backend development."; sec_score := -5 |} ] /\
  keyword_count summary_keywords (py "in backend development.") = 0 /\
  short_penalty (py "in backend development.") = 5 /\
  locate scenario_C = None /\
  extract_experience_traced scenario_C =
  call EntireText (_extract_experience_from_entire_text scenario_C) /\
  _extract_experience_from_entire_text scenario_C = Ok [].
Proof. repeat split; vm_compute; reflexivity. Qed.

(** C8, the claim as written, fails: the only candidate of scenario C does
    not contain the keyword "experience in". *)
Lemma scenario_C_block_has_no_summary_keyword :
  ~ exists c,
      find_sections scenario_C = [c] /\
      str_in (py "experience in") (lower (sec_text c)) = true /\
      sec_score c <= 0 /\
      locate scenario_C = None /\
      extract_experience scenario_C
      = _extract_experience_from_entire_text scenario_C.
Proof.
  intros (c & H & Hin & _). vm_compute in H. injection H as <-.
  vm_compute in Hin. discriminate Hin.
Qed.

(** ** The matcher *)

Lemma firstn_consumed (w x1 : str) :
  firstn (List.length (w ++ x1) - List.length x1) (w ++ x1) = w.
Proof.
  rewrite length_app.
  replace (List.length w + List.length x1 - List.length x1)%nat
    with (List.length w + 0)%nat by lia.
  rewrite firstn_app_2. simpl. apply app_nil_r.
Qed.

(** Whatever the matcher accepts is a match: the text consumed is matched
    by the expression and the continuation accepted the rest. *)
Lemma rmatch_sound (r : regex) :
  forall x c k res,
    rmatch r x c k = Some res ->
    exists w x1 c1, x = w ++ x1 /\ matches r w c c1 /\ k x1 c1 = Some res.
Proof.
  induction r as [|p|r1 IH1 r2 IH2|r1 IH1 r2 IH2|r1 IH1|i r1 IH1];
    intros x c k res H; simpl in H.
  - exists [], x, c. repeat split; [constructor | assumption].
  - destruct x as [|a x]; [discriminate|].
    destruct (p a) eqn:E; [|discriminate].
    exists [a], x, c. repeat split; [now constructor | assumption].
  - apply IH1 in H. destruct H as (w1 & x1 & c1 & -> & M1 & H).
    apply IH2 in H. destruct H as (w2 & x2 & c2 & -> & M2 & H).
    exists (w1 ++ w2), x2, c2. rewrite <- app_assoc.
    repeat split; [econstructor; eassumption | assumption].
  - destruct (rmatch r1 x c k) as [res'|] eqn:E.
    + injection H as <-. apply IH1 in E.
      destruct E as (w & x1 & c1 & -> & M & E).
      exists w, x1, c1. repeat split; [now apply M_AltL | assumption].
    + apply IH2 in H. destruct H as (w & x1 & c1 & -> & M & H).
      exists w, x1, c1. repeat split; [now apply M_AltR | assumption].
  - revert H. generalize (List.length x) as n. intros n. revert x c.
    induction n as [|n IHn]; intros x c H; simpl in H.
    + exists [], x, c. repeat split; [constructor | assumption].
    + destruct (rmatch r1 x c _) as [res'|] eqn:E.
      * injection H as <-. apply IH1 in E.
        destruct E as (w1 & x1 & c1 & -> & M1 & E).
        destruct (List.length x1 <? List.length (w1 ++ x1))%nat;
          [|discriminate].
        apply IHn in E. destruct E as (w2 & x2 & c2 & -> & M2 & E).
        exists (w1 ++ w2), x2, c2. rewrite <- app_assoc.
        repeat split; [econstructor; eassumption | assumption].
      * exists [], x, c. repeat split; [constructor | assumption].
  - apply IH1 in H. destruct H as (w & x1 & c1 & -> & M & H).
    rewrite firstn_consumed in H.
    exists w, x1, (set_group i w c1).
    repeat split; [now constructor | assumption].
Qed.

Lemma match_here_sound (r : regex) (x : str) (c : caps) (rest : str) :
  match_here r x = Some (c, rest) ->
  exists w, x = w ++ rest /\ matches r w no_caps c.
Proof.
  intros H. apply rmatch_sound in H.
  destruct H as (w & x1 & c1 & -> & M & H). injection H as <- <-.
  now exists w.
Qed.

(** A continuation that refuses everything makes the matcher fail. *)
Lemma rmatch_refused (r : regex) (x : str) (c : caps) (k : cont) :
  (forall x1 c1, k x1 c1 = None) -> rmatch r x c k = None.
Proof.
  intros Hk. destruct (rmatch r x c k) as [res|] eqn:E; [|reflexivity].
  apply rmatch_sound in E. destruct E as (w & x1 & c1 & _ & _ & E).
  rewrite Hk in E. discriminate.
Qed.

(** The matcher sees its continuation only through its answers. *)
Lemma rmatch_ext (r : regex) :
  forall x c k k',
    (forall x1 c1, k x1 c1 = k' x1 c1) -> rmatch r x c k = rmatch r x c k'.
Proof.
  induction r as [|p|r1 IH1 r2 IH2|r1 IH1 r2 IH2|r1 IH1|i r1 IH1];
    intros x c k k' Hk; simpl.
  - apply Hk.
  - destruct x as [|a x]; [reflexivity|]. destruct (p a); [apply Hk|reflexivity].
  - apply IH1. intros x1 c1. now apply IH2.
  - rewrite (IH1 x c k k' Hk), (IH2 x c k k' Hk). reflexivity.
  - generalize (List.length x) as n. intros n. revert x c.
    induction n as [|n IHn]; intros x c; simpl; [apply Hk|].
    rewrite (IH1 x c _
               (fun x1 c1 =>
                  if (List.length x1 <? List.length x)%nat
                  then star_rounds (rmatch r1) k' n x1 c1 else None)).
    + now rewrite Hk.
    + intros x1 c1. destruct (_ <? _)%nat; [apply IHn | reflexivity].
  - apply IH1. intros x1 c1. apply Hk.
Qed.

(** The bound on the rounds of a repetition cuts nothing short: any bound
    that is at least the length of the text gives the same answer. *)
Lemma star_rounds_fuel (r : regex) (k : cont) :
  forall n m x c,
    (List.length x <= n)%nat -> (List.length x <= m)%nat ->
    star_rounds (rmatch r) k n x c = star_rounds (rmatch r) k m x c.
Proof.
  assert (forall m x c, List.length x = O ->
            star_rounds (rmatch r) k m x c = k x c) as Hnil.
  { intros [|m] x c Hx; simpl; [reflexivity|].
    rewrite rmatch_refused; [reflexivity|].
    intros x1 c1. rewrite Hx.
    destruct (List.length x1 <? 0)%nat eqn:E; [|reflexivity].
    apply Nat.ltb_lt in E. lia. }
  induction n as [|n IHn]; intros m x c Hn Hm.
  - rewrite (Hnil m x c) by lia. reflexivity.
  - destruct m as [|m].
    + rewrite (Hnil (S n) x c) by lia. reflexivity.
    + simpl.
      rewrite (rmatch_ext r x c _
                 (fun x1 c1 =>
                    if (List.length x1 <? List.length x)%nat
                    then star_rounds (rmatch r) k m x1 c1 else None));
        [reflexivity|].
      intros x1 c1.
      destruct (List.length x1 <? List.length x)%nat eqn:E; [|reflexivity].
      apply Nat.ltb_lt in E. apply IHn; lia.
Qed.

Lemma matches_Cat_inv (r1 r2 : regex) (w : str) (c c' : caps) :
  matches (Cat r1 r2) w c c' ->
  exists w1 w2 c1, w = w1 ++ w2 /\ matches r1 w1 c c1 /\ matches r2 w2 c1 c'.
Proof. intros H. inversion H; subst. eauto 6. Qed.

Lemma matches_Alt_inv (r1 r2 : regex) (w : str) (c c' : caps) :
  matches (Alt r1 r2) w c c' -> matches r1 w c c' \/ matches r2 w c c'.
Proof. intros H. inversion H; subst; auto. Qed.

Lemma matches_Grp_inv (i : nat) (r : regex) (w : str) (c c' : caps) :
  matches (Grp i r) w c c' ->
  exists c1, matches r w c c1 /\ c' = set_group i w c1.
Proof. intros H. inversion H; subst. eauto. Qed.

Lemma matches_lit (s w : str) (c c' : caps) : matches (lit s) w c c' -> w = s.
Proof.
  revert w c. induction s as [|a s IH]; intros w c H; simpl in H.
  - inversion H. reflexivity.
  - apply matches_Cat_inv in H. destruct H as (w1 & w2 & c1 & -> & H1 & H2).
    inversion H1; subst. apply IH in H2. subst w2.
    match goal with E : Ascii.eqb _ _ = true |- _ => apply Ascii.eqb_eq in E; subst end.
    reflexivity.
Qed.

(** Every tuple of [findall] is the groups of an anchored match. *)
Lemma findall_go_match (p : pattern) (x : str) :
  forall skip m,
    In m (findall_go p skip x) ->
    exists y c rest, match_here (rx p) y = Some (c, rest) /\ m = groups p c.
Proof.
  induction x as [|a x IH]; intros [|k] m; simpl.
  - destruct (match_here (rx p) []) as [[c rest]|] eqn:E; simpl.
    + intros [<-|[]]. eauto.
    + intros [].
  - intros [].
  - destruct (match_here (rx p) (a :: x)) as [[c rest]|] eqn:E; simpl.
    + intros [<-|H]; [eauto | eapply IH; eassumption].
    + apply IH.
  - apply IH.
Qed.

(** ** The whole-text strategy *)

Lemma for_each_In {A B} (l : list A) (body : A -> result (list B)) :
  forall r e,
    for_each l body = Ok r -> In e r ->
    exists a ra, In a l /\ body a = Ok ra /\ In e ra.
Proof.
  induction l as [|a l IH]; intros r e H He; simpl in H.
  - injection H as <-. destruct He.
  - destruct (body a) as [ra|] eqn:Ea; simpl in H; [|discriminate].
    destruct (for_each l body) as [rs|] eqn:Es; simpl in H; [|discriminate].
    injection H as <-. apply in_app_or in He. destruct He as [He|He].
    + exists a, ra. auto with datatypes.
    + destruct (IH rs e eq_refl He) as (a' & ra' & Hin & Hb & He').
      exists a', ra'. auto with datatypes.
Qed.

Lemma for_each_nothing {A B} (l : list A) (body : A -> result (list B)) :
  (forall a, In a l -> body a = Ok []) -> for_each l body = Ok [].
Proof.
  induction l as [|a l IH]; intros H; simpl; [reflexivity|].
  rewrite (H a) by now left. simpl.
  rewrite IH by (intros; apply H; now right). reflexivity.
Qed.

Lemma lstrip_keeps_last (y : str) (a : ascii) :
  is_space a = false -> exists z, lstrip (y ++ [a]) = z ++ [a].
Proof.
  intros Ha. induction y as [|c y IH]; simpl.
  - rewrite Ha. now exists [].
  - destruct (is_space c); [exact IH | now exists (c :: y)].
Qed.

(** [strip] leaves a last character that is not white space in place. *)
Lemma strip_keeps_last (y : str) (a : ascii) :
  is_space a = false -> exists z, strip (y ++ [a]) = z ++ [a].
Proof.
  intros Ha. unfold strip, rstrip.
  destruct (lstrip_keeps_last y a Ha) as [z ->]. exists z.
  rewrite rev_app_distr. simpl. rewrite Ha. simpl.
  now rewrite rev_involutive.
Qed.

Lemma set_group_same (i : nat) (w : str) (c : caps) : set_group i w c i = w.
Proof. unfold set_group. now rewrite Nat.eqb_refl. Qed.

(** The last group of the first pattern ends in "20XX" or is "Current". *)
Lemma job_pattern1_last_group (w : str) (c0 c : caps) :
  matches (rx job_pattern1) w c0 c ->
  (exists u, c 4%nat = u ++ py "20XX") \/ c 4%nat = py "Current".
Proof.
  intros H. unfold job_pattern1 in H. cbn [rx cat] in H.
  repeat (apply matches_Cat_inv in H;
          destruct H as (? & ? & ? & _ & _ & H)).
  apply matches_Grp_inv in H. destruct H as (c1 & H & ->).
  rewrite set_group_same.
  apply matches_Alt_inv in H. destruct H as [H|H].
  - left. unfold month_20XX in H. cbn [cat] in H.
    apply matches_Cat_inv in H. destruct H as (wa & w' & ca & -> & _ & H).
    apply matches_Cat_inv in H. destruct H as (wb & wl & cb & -> & _ & H).
    apply matches_lit in H. subst wl.
    exists (wa ++ wb). now rewrite app_assoc.
  - right. now apply matches_lit in H.
Qed.

Lemma strip_not_Present (g : str) :
  (exists u, g = u ++ py "20XX") \/ g = py "Current" ->
  strip g <> py "Present".
Proof.
  intros [[u ->]| ->].
  - change (py "20XX") with (py "20X" ++ ["X"%char]). rewrite app_assoc.
    destruct (strip_keeps_last (u ++ py "20X") "X" eq_refl) as [z ->].
    change (py "Present") with (py "Presen" ++ ["t"%char]).
    intros E. apply app_inj_tail in E. destruct E as [_ E]. discriminate E.
  - vm_compute. discriminate.
Qed.

(** An entry of the strategy takes its end date from the fourth group of a
    four-group match, or has none. *)
Lemma entire_text_entry_end_date (m : list str) (r : list Experience)
  (e : Experience) :
  entire_text_entry m = Ok r -> In e r ->
  (exists a b c d, m = [a; b; c; d] /\ end_date e = strip d) \/
  (List.length m = 2%nat /\ end_date e = []).
Proof.
  unfold entire_text_entry. intros H He.
  destruct (List.length m =? 4)%nat eqn:E4.
  - apply Nat.eqb_eq in E4.
    destruct m as [|a [|b [|c [|d [|? m]]]]]; try discriminate.
    simpl in H. destruct (has_role a); injection H as <-; [|destruct He].
    destruct He as [<-|[]]. left. now exists a, b, c, d.
  - destruct (List.length m =? 2)%nat eqn:E2.
    + apply Nat.eqb_eq in E2.
      destruct m as [|a [|b [|? m]]]; try discriminate.
      simpl in H. destruct (has_role a); injection H as <-; [|destruct He].
      destruct He as [<-|[]]. right. split; reflexivity.
    + injection H as <-. destruct He.
Qed.

(** The matches of the second pattern have three groups and give no
    entry. *)
Lemma job_pattern2_dropped (text : str) :
  for_each (re_findall job_pattern2 text) entire_text_entry = Ok [].
Proof.
  apply for_each_nothing. intros m Hm.
  apply re_findall_length in Hm. change (ngroups job_pattern2) with 3%nat in Hm.
  unfold entire_text_entry. now rewrite Hm.
Qed.

(** C10.  In the whole-text strategy every match of the second pattern
    ("Title - Company (Month Year - Present)") has three groups, fits
    neither branch of the dispatch and is dropped; the strategy returns what
    its first and third patterns alone give; and no entry it returns has
    the end date "Present". *)
Theorem entire_text_ignores_second_pattern (text : str) :
  for_each (re_findall job_pattern2 text) entire_text_entry = Ok [] /\
  _extract_experience_from_entire_text text
  = scan_patterns [job_pattern1; job_pattern3] text /\
  exists entries,
    _extract_experience_from_entire_text text = Ok entries /\
    Forall (fun e => end_date e <> py "Present") entries.
Proof.
  split; [apply job_pattern2_dropped|]. split.
  - unfold _extract_experience_from_entire_text, scan_patterns, job_patterns.
    cbn [for_each]. rewrite job_pattern2_dropped. cbn [bind].
    destruct (for_each (re_findall job_pattern1 text) entire_text_entry);
      [|reflexivity].
    cbn [bind].
    destruct (for_each (re_findall job_pattern3 text) entire_text_entry);
      reflexivity.
  - destruct (entire_text_ok text) as [entries H]. exists entries.
    split; [exact H|]. apply Forall_forall. intros e He.
    unfold _extract_experience_from_entire_text, scan_patterns in H.
    destruct (for_each_In _ _ _ _ H He) as (p & rp & Hp & Hrp & Hep).
    cbv zeta in Hrp.
    destruct (for_each_In _ _ _ _ Hrp Hep) as (m & rm & Hm & Hrm & Hem).
    destruct (entire_text_entry_end_date _ _ _ Hrm Hem)
      as [(a & b & c & d & -> & ->)|[_ ->]]; [|discriminate].
    pose proof (re_findall_length _ _ _ Hm) as Hlen.
    destruct Hp as [<-|[<-|[<-|[]]]]; try discriminate Hlen.
    destruct (findall_go_match _ _ _ _ Hm) as (y & cp & rest & Hy & Hg).
    apply match_here_sound in Hy. destruct Hy as (w & _ & Hy).
    unfold groups in Hg. simpl in Hg. injection Hg as _ _ _ ->.
    apply strip_not_Present. eapply job_pattern1_last_group. exact Hy.
Qed.

(** A line in the layout of the second pattern is read by the third: the
    dates are lost. *)
Example entire_text_on_present_line :
  _extract_experience_from_entire_text
    (py "Software Engineer - Acme (January 2020 - Present)")
  = Ok [entry (py "Software Engineer") (py "Acme") [] []].
Proof. vm_compute. reflexivity. Qed.

(** ** The boundary of a block *)

Lemma find_0 (x sub : str) :
  find x sub 0 =
  match index_of sub x with Some i => Z.of_nat i | None => -1 end.
Proof.
  unfold find. pose proof (len_nonneg x).
  destruct (len x <? 0) eqn:E; [apply Z.ltb_lt in E; lia|].
  simpl. destruct (index_of sub x); reflexivity.
Qed.

Lemma next_section_step_least (x : str) (done : list str) (pos : Z)
  (m : str) :
  least_offset x done pos ->
  least_offset x (done ++ [m]) (next_section_step x pos m).
Proof.
  intros H. unfold next_section_step. rewrite find_0.
  destruct (index_of m x) as [i'|] eqn:E.
  - destruct (index_of_Some _ _ _ E) as [Hocc Hmin].
    replace (negb (Z.of_nat i' =? -1)) with true
      by (symmetry; apply negb_true_iff, Z.eqb_neq; lia).
    destruct H as [[-> Hnone]|(i & -> & (m0 & Hm0 & Ho) & Hleast)].
    + simpl. right. exists i'. split; [reflexivity|]. split.
      * exists m. split; [apply in_or_app; right; now left | exact Hocc].
      * intros m1 j Hm1 Hj. apply in_app_or in Hm1.
        destruct Hm1 as [Hm1|[<-|[]]]; [now apply Hnone | now apply Hmin].
    + replace (Z.of_nat i =? -1) with false by (symmetry; apply Z.eqb_neq; lia).
      simpl. destruct (Z.of_nat i' <? Z.of_nat i) eqn:Elt.
      * apply Z.ltb_lt in Elt. right. exists i'. split; [reflexivity|]. split.
        -- exists m. split; [apply in_or_app; right; now left | exact Hocc].
        -- intros m1 j Hm1 Hj. apply in_app_or in Hm1.
           destruct Hm1 as [Hm1|[<-|[]]];
             [apply Hleast; [exact Hm1 | lia] | now apply Hmin].
      * apply Z.ltb_ge in Elt. right. exists i. split; [reflexivity|]. split.
        -- exists m0. split; [apply in_or_app; now left | exact Ho].
        -- intros m1 j Hm1 Hj. apply in_app_or in Hm1.
           destruct Hm1 as [Hm1|[<-|[]]];
             [now apply Hleast | apply Hmin; lia].
  - pose proof (index_of_None _ _ E) as Hno. simpl.
    destruct H as [[-> Hnone]|(i & -> & (m0 & Hm0 & Ho) & Hleast)].
    + left. split; [reflexivity|]. intros m1 j Hm1. apply in_app_or in Hm1.
      destruct Hm1 as [Hm1|[<-|[]]]; [now apply Hnone | apply Hno].
    + right. exists i. split; [reflexivity|]. split.
      * exists m0. split; [apply in_or_app; now left | exact Ho].
      * intros m1 j Hm1 Hj. apply in_app_or in Hm1.
        destruct Hm1 as [Hm1|[<-|[]]]; [now apply Hleast | apply Hno].
Qed.

Lemma fold_next_section_least (x : str) (todo : list str) :
  forall done pos,
    least_offset x done pos ->
    least_offset x (done ++ todo) (fold_left (next_section_step x) todo pos).
Proof.
  induction todo as [|m todo IH]; intros done pos H; simpl.
  - now rewrite app_nil_r.
  - replace (done ++ m :: todo) with ((done ++ [m]) ++ todo)
      by (now rewrite <- app_assoc).
    apply IH. now apply next_section_step_least.
Qed.

(** The boundary is the least offset at which a marker occurs with its
    exact letter case. *)
Lemma find_next_section_least (x : str) :
  (find_next_section x = -1 /\ forall i, ~ marker_at x i) \/
  (exists i, find_next_section x = Z.of_nat i /\ marker_at x i /\
             forall j, (j < i)%nat -> ~ marker_at x j).
Proof.
  pose proof (fold_next_section_least x next_sections [] (-1)) as H.
  simpl app in H. fold (find_next_section x) in H.
  destruct H as [[E Hnone]|(i & E & Hocc & Hleast)].
  - left. split; [reflexivity|]. intros m j [].
  - left. split; [exact E|]. intros i (m & Hm & Ho). exact (Hnone m i Hm Ho).
  - right. exists i. split; [exact E|]. split; [exact Hocc|].
    intros j Hj (m & Hm & Ho). exact (Hleast m j Hm Hj Ho).
Qed.

Lemma section_text_of_cases (x : str) :
  (find_next_section x = -1 /\ section_text_of x = strip x) \/
  (exists i, find_next_section x = Z.of_nat i /\
             section_text_of x = strip (firstn i x)).
Proof.
  unfold section_text_of.
  destruct (find_next_section_least x) as [[E _]|(i & E & _)]; rewrite E.
  - left. split; reflexivity.
  - right. exists i. split; [reflexivity|].
    replace (Z.of_nat i =? -1) with false by (symmetry; apply Z.eqb_neq; lia).
    simpl. now rewrite Nat2Z.id.
Qed.

Lemma app_eq_length {A} (a a' b b' : list A) :
  a ++ b = a' ++ b' -> List.length a = List.length a' -> a = a' /\ b = b'.
Proof.
  revert a'. induction a as [|h a IH]; intros [|h' a'] E L;
    try discriminate; simpl in *.
  - now split.
  - injection E as -> E. injection L as L.
    destruct (IH a' E L) as [-> ->]. now split.
Qed.

(** An upper-case heading is not a marker: where it stands no marker
    occurs. *)
Lemma upper_heading_not_marker (m m' pre post a b : str) :
  In m next_sections -> In m' next_sections ->
  pre ++ upper m ++ post = a ++ m' ++ b ->
  List.length a <> List.length pre.
Proof.
  intros Hm Hm' E L. symmetry in L.
  destruct (app_eq_length _ _ _ _ E L) as [_ E'].
  simpl in Hm, Hm'.
  destruct Hm as [<-|[<-|[<-|[<-|[]]]]];
    destruct Hm' as [<-|[<-|[<-|[<-|[]]]]];
    vm_compute in E'; discriminate E'.
Qed.

Lemma lstrip_infix (a : str) (h : ascii) (w b : str) :
  is_space h = false ->
  exists a', lstrip (a ++ (h :: w) ++ b) = a' ++ (h :: w) ++ b.
Proof.
  intros Hh. induction a as [|c a IH]; simpl.
  - rewrite Hh. now exists [].
  - destruct (is_space c); [exact IH | now exists (c :: a)].
Qed.

Lemma rev_around (a : str) (h : ascii) (w : str) (t : ascii) (b : str) :
  rev (a ++ (h :: w ++ [t]) ++ b) = rev b ++ (t :: rev w) ++ h :: rev a.
Proof.
  rewrite rev_app_distr. simpl. rewrite !rev_app_distr. simpl.
  now rewrite <- !app_assoc.
Qed.

(** [strip] keeps a word that begins and ends with characters other than
    white space. *)
Lemma strip_infix (a : str) (h : ascii) (w : str) (t : ascii) (b : str) :
  is_space h = false -> is_space t = false ->
  exists a' b', strip (a ++ (h :: w ++ [t]) ++ b) = a' ++ (h :: w ++ [t]) ++ b'.
Proof.
  intros Hh Ht. unfold strip, rstrip.
  destruct (lstrip_infix a h (w ++ [t]) b Hh) as [a' ->].
  rewrite rev_around.
  destruct (lstrip_infix (rev b) t (rev w) (h :: rev a') Ht) as [b' ->].
  exists a', (rev b').
  rewrite rev_app_distr. simpl. rewrite rev_app_distr. simpl.
  rewrite !rev_involutive, <- !app_assoc. reflexivity.
Qed.

Lemma upper_heading_kept (m a b : str) :
  In m next_sections -> str_in (upper m) (strip (a ++ upper m ++ b)) = true.
Proof.
  intros Hm. apply str_in_true_iff. simpl in Hm.
  destruct Hm as [<-|[<-|[<-|[<-|[]]]]].
  - exact (strip_infix a "E" (py "DUCATIO") "N" b eq_refl eq_refl).
  - exact (strip_infix a "S" (py "KILL") "S" b eq_refl eq_refl).
  - exact (strip_infix a "P" (py "ROJECT") "S" b eq_refl eq_refl).
  - exact (strip_infix a "C" (py "ERTIFICATION") "S" b eq_refl eq_refl).
Qed.

(** Every candidate carries the block that follows its header and the score
    of that block. *)
Lemma scan_header_In (text header : str) (fuel : nat) :
  forall start c,
    In c (scan_header fuel text header start) ->
    sec_header c = header /\
    sec_text c = section_text_of (after_header_of text c) /\
    sec_score c = section_score (sec_header c) (sec_text c).
Proof.
  induction fuel as [|fuel IH]; intros start c H; simpl in H; [destruct H|].
  destruct (find (upper text) header start =? -1); [destruct H|].
  destruct H as [<-|H]; [|eapply IH; exact H].
  unfold after_header_of. simpl. repeat split.
Qed.

Lemma find_sections_In (text : str) (c : Candidate) :
  In c (find_sections text) ->
  In (sec_header c) experience_headers /\
  sec_text c = section_text_of (after_header_of text c) /\
  sec_score c = section_score (sec_header c) (sec_text c).
Proof.
  unfold find_sections. intros H. apply in_flat_map in H.
  destruct H as (header & Hh & H). apply scan_header_In in H.
  destruct H as (E & Ht & Hs). rewrite E in *. auto.
Qed.

Lemma firstn_past_heading (pre u post : str) (i : nat) :
  (List.length pre + List.length u <= i)%nat ->
  firstn i (pre ++ u ++ post)
  = pre ++ u ++ firstn (i - List.length pre - List.length u) post.
Proof.
  intros H.
  rewrite firstn_app, (firstn_all2 pre) by lia.
  rewrite firstn_app, (firstn_all2 u) by lia.
  reflexivity.
Qed.

(** The block of a candidate: it is taken from the text after the header up
    to the boundary, the least offset of a case-exact marker; an upper-case
    heading is never the boundary, and lies inside the block when no
    case-exact marker starts before its end. *)
Lemma candidate_block_boundary
  (text : str) (c : Candidate) (Hc : In c (find_sections text)) :
  let after_header := after_header_of text c in
  sec_score c = section_score (sec_header c) (sec_text c) /\
  ((find_next_section after_header = -1 /\
    (forall i, ~ marker_at after_header i) /\
    sec_text c = strip after_header) \/
   (exists i,
      find_next_section after_header = Z.of_nat i /\
      marker_at after_header i /\
      (forall j, (j < i)%nat -> ~ marker_at after_header j) /\
      sec_text c = strip (firstn i after_header))) /\
  (forall marker pre post,
     In marker next_sections ->
     after_header = pre ++ upper marker ++ post ->
     find_next_section after_header <> len pre /\
     (find_next_section after_header = -1 \/
      len pre + len marker <= find_next_section after_header ->
      str_in (upper marker) (sec_text c) = true)).
Proof.
  intros after_header.
  destruct (find_sections_In text c Hc) as (_ & Ht & Hs).
  fold after_header in Ht.
  split; [exact Hs|]. split.
  - destruct (find_next_section_least after_header)
      as [[E Hnone]|(i & E & Hocc & Hleast)].
    + left. repeat split; [exact E | exact Hnone |].
      rewrite Ht. unfold section_text_of. now rewrite E.
    + right. exists i. repeat split; [exact E | exact Hocc | exact Hleast |].
      rewrite Ht. unfold section_text_of. rewrite E.
      replace (Z.of_nat i =? -1) with false
        by (symmetry; apply Z.eqb_neq; lia).
      simpl. now rewrite Nat2Z.id.
  - intros marker pre post Hm Hafter. split.
    + intros E.
      destruct (find_next_section_least after_header)
        as [[E' _]|(i & E' & (m' & Hm' & a & b & Hab & La) & _)].
      * pose proof (len_nonneg pre). lia.
      * rewrite Hafter in Hab.
        apply (upper_heading_not_marker marker m' pre post a b Hm Hm' Hab).
        unfold len in E. lia.
    + intros Hfree. rewrite Ht.
      destruct (section_text_of_cases after_header)
        as [[_ ->]|(i & E & ->)].
      * rewrite Hafter. now apply upper_heading_kept.
      * assert (List.length pre + List.length (upper marker) <= i)%nat as Hi.
        { unfold upper. rewrite length_map. unfold len in Hfree. lia. }
        rewrite Hafter, (firstn_past_heading _ _ _ _ Hi).
        now apply upper_heading_kept.
Qed.


(** * Further properties of the extraction engine *)

(** ** Documents without a header *)

Lemma find_absent (x sub : str) (start : Z) :
  str_in sub x = false -> find x sub start = -1.
Proof.
  intros H. unfold find. destruct (len x <? start); [reflexivity|].
  destruct (index_of sub (skipn (Z.to_nat start) x)) as [i|] eqn:E;
    [|reflexivity].
  destruct (index_of_Some _ _ _ E) as [(a & b & Hx & _) _].
  assert (str_in sub x = true) as Hin.
  { apply str_in_true_iff.
    exists (firstn (Z.to_nat start) x ++ a), b.
    rewrite <- app_assoc, <- Hx. symmetry. apply firstn_skipn. }
  congruence.
Qed.

Lemma scan_header_absent (text header : str) (fuel : nat) (start : Z) :
  str_in header (upper text) = false ->
  scan_header fuel text header start = [].
Proof.
  intros H. destruct fuel; simpl; [reflexivity|].
  now rewrite (find_absent _ _ start H).
Qed.

Lemma flat_map_nothing {A B} (f : A -> list B) (l : list A) :
  (forall a, In a l -> f a = []) -> flat_map f l = [].
Proof.
  induction l as [|a l IH]; intros H; simpl; [reflexivity|].
  rewrite (H a (or_introl eq_refl)). simpl. apply IH.
  intros a' Ha'. apply H. now right.
Qed.

(** X1.  A text in which no header synonym occurs, whatever the letter
    case, has no candidate: [extract_experience] calls the whole-text
    strategy at once, that strategy only, and returns its result. *)
Theorem no_header_goes_to_whole_text (text : str)
  (Hnone : forall header,
      In header experience_headers -> str_in header (upper text) = false) :
  find_sections text = [] /\
  extract_experience_traced text
  = ([EntireText], _extract_experience_from_entire_text text).
Proof.
  assert (find_sections text = []) as Hf.
  { unfold find_sections. apply flat_map_nothing.
    intros h Hh. apply scan_header_absent. now apply Hnone. }
  split; [exact Hf|].
  unfold extract_experience_traced, potential_sections. rewrite Hf.
  reflexivity.
Qed.

Lemma no_header_goes_to_whole_text_witness :
  extract_experience_traced (py "Web Developer - Acme Labs")
  = ([EntireText],
     Ok [entry (py "Web Developer") (py "Acme Labs") [] []]).
Proof.
  refine (eq_trans
            (proj2 (no_header_goes_to_whole_text
                      (py "Web Developer - Acme Labs") _)) _).
  - intros header H. simpl in H.
    repeat (destruct H as [<-|H]; [vm_compute; reflexivity|]).
    destruct H.
  - vm_compute. reflexivity.
Defined.

(** ** Every occurrence of a header is a candidate *)

Lemma occurs_at_skipn (sub x : str) (n i : nat) :
  (n <= i)%nat -> occurs_at sub x i -> occurs_at sub (skipn n x) (i - n).
Proof.
  intros Hn (a & b & -> & Ha).
  exists (skipn n a), b. split.
  - rewrite skipn_app. replace (n - List.length a)%nat with O by lia.
    reflexivity.
  - rewrite length_skipn. lia.
Qed.

Lemma occurs_at_bound (sub x : str) (i : nat) :
  occurs_at sub x i -> (i <= List.length x)%nat.
Proof. intros (a & b & -> & <-). rewrite length_app. lia. Qed.

(** [find] answers the first occurrence that is not before [start]. *)
Lemma find_least (x sub : str) (start : Z) (i : nat) :
  0 <= start -> start <= Z.of_nat i -> occurs_at sub x i ->
  find x sub start <> -1 /\ find x sub start <= Z.of_nat i.
Proof.
  intros Hs Hi Hocc. pose proof (occurs_at_bound _ _ _ Hocc) as Hb.
  unfold find, len.
  destruct (Z.of_nat (List.length x) <? start) eqn:E;
    [apply Z.ltb_lt in E; lia|].
  assert (Z.to_nat start <= i)%nat as Hn by lia.
  pose proof (occurs_at_skipn _ _ _ _ Hn Hocc) as Hocc'.
  destruct (index_of sub (skipn (Z.to_nat start) x)) as [j|] eqn:Ej.
  - destruct (index_of_Some _ _ _ Ej) as [_ Hmin].
    assert (j <= i - Z.to_nat start)%nat as Hj.
    { destruct (Nat.le_gt_cases j (i - Z.to_nat start)) as [|Hlt];
        [assumption|]. exfalso. exact (Hmin _ Hlt Hocc'). }
    lia.
  - exfalso. exact (index_of_None _ _ Ej _ Hocc').
Qed.

Lemma scan_header_complete (text header : str) (i : nat) (fuel : nat) :
  forall start,
    0 <= start -> len text - start < Z.of_nat fuel ->
    start <= Z.of_nat i -> occurs_at header (upper text) i ->
    exists c, In c (scan_header fuel text header start) /\
              sec_header c = header /\ sec_position c = Z.of_nat i.
Proof.
  induction fuel as [|fuel IH]; intros start Hs Hfuel Hi Hocc.
  - pose proof (occurs_at_bound _ _ _ Hocc) as Hb.
    unfold upper in Hb. rewrite length_map in Hb. unfold len in Hfuel. lia.
  - destruct (find_least _ _ _ _ Hs Hi Hocc) as [Hne Hle].
    destruct (find_occurs _ _ _ Hs Hne) as [Hge _].
    simpl. apply Z.eqb_neq in Hne. rewrite Hne.
    destruct (Z.eq_dec (find (upper text) header start) (Z.of_nat i))
      as [E|E].
    + eexists. split; [left; reflexivity|]. simpl. now split.
    + destruct (IH (find (upper text) header start + 1))
        as (c & Hc & Hh & Hp); [lia | lia | lia | exact Hocc |].
      exists c. split; [now right | now split].
Qed.

(** X2.  The candidates are exactly the occurrences of the header synonyms
    in the upper-cased text: every offset at which a synonym occurs,
    overlapping occurrences included, gives a candidate with that header at
    that offset, and there is no other candidate. *)
Theorem candidates_are_the_header_occurrences
  (text header : str) (i : nat) :
  (exists c, In c (find_sections text) /\
             sec_header c = header /\ sec_position c = Z.of_nat i) <->
  (In header experience_headers /\ occurs_at header (upper text) i).
Proof.
  split.
  - intros (c & Hc & <- & Hp).
    destruct (find_sections_position _ _ Hc) as [Hh Hocc].
    rewrite Hp, Nat2Z.id in Hocc. now split.
  - intros [Hh Hocc].
    destruct (scan_header_complete text header i (S (List.length text)) 0)
      as (c & Hc & Hhc & Hp); [lia | unfold len; lia | lia | exact Hocc |].
    exists c. split; [|now split].
    unfold find_sections. apply in_flat_map. now exists header.
Qed.

(** ** The range of the score *)

(** X3.  The score of a block is bounded: it lies between -20 and 29, and
    between -20 and 19 under any header other than "PROFESSIONAL
    EXPERIENCE"; the bonus for a long block and the penalty for a short one
    never apply together. *)
Theorem section_score_range (header section_text : str) :
  -20 <= section_score header section_text <= 29 /\
  (header <> py "PROFESSIONAL EXPERIENCE" ->
   section_score header section_text <= 19) /\
  (long_bonus section_text = 0 \/ short_penalty section_text = 0).
Proof.
  rewrite section_score_sum.
  pose proof (keyword_count_bounds job_keywords section_text) as HJ.
  pose proof (keyword_count_bounds summary_keywords section_text) as HS.
  change (Z.of_nat (List.length job_keywords)) with 7 in HJ.
  change (Z.of_nat (List.length summary_keywords)) with 5 in HS.
  assert (long_bonus section_text = 0 /\ 0 <= short_penalty section_text <= 5
          \/ long_bonus section_text = 5 /\ short_penalty section_text = 0)
    as HL.
  { unfold long_bonus, short_penalty.
    destruct (100 <? len section_text) eqn:E1;
      destruct (len section_text <? 50) eqn:E2;
      try apply Z.ltb_lt in E1; try apply Z.ltb_lt in E2; lia. }
  assert (0 <= header_bonus header <= 10) as HB
    by (unfold header_bonus; destruct (str_eqb _ _); lia).
  split; [lia|]. split; [|lia].
  intros Hne.
  assert (header_bonus header = 0) as ->.
  { unfold header_bonus.
    destruct (str_eqb header (py "PROFESSIONAL EXPERIENCE")) eqn:E;
      [|reflexivity].
    exfalso. apply Hne. clear - E.
    revert E. generalize (py "PROFESSIONAL EXPERIENCE") as y.
    induction header as [|a x IH]; intros [|b y] E; simpl in E;
      try discriminate; [reflexivity|].
    apply andb_true_iff in E. destruct E as [Hab E].
    apply Ascii.eqb_eq in Hab. subst b. f_equal. now apply IH. }
  lia.
Qed.

Lemma section_score_range_witness :
  section_score (py "EXPERIENCE") (py "Lead Engineer and Manager") <= 19.
Proof.
  refine (proj1 (proj2 (section_score_range (py "EXPERIENCE")
                          (py "Lead Engineer and Manager"))) _).
  discriminate.
Defined.

(** ** The order of all the candidates *)

Lemma insert_desc_sorted (a : Candidate) (l : list Candidate) :
  StronglySorted key_ge l -> StronglySorted key_ge (insert_desc a l).
Proof.
  induction l as [|b l IH]; intros H; simpl.
  - constructor; constructor.
  - inversion H as [|? ? Hl Hb]; subst.
    destruct (key_lt a b) eqn:E.
    + constructor; [now apply IH|].
      eapply Permutation_Forall;
        [apply Permutation_sym, insert_desc_perm|].
      constructor; [now apply key_lt_ge | exact Hb].
    + pose proof (key_nlt_ge _ _ E) as Hab.
      constructor; [exact H|]. constructor; [exact Hab|].
      eapply Forall_impl; [|exact Hb].
      intros c Hc. eapply key_ge_trans; eassumption.
Qed.

Lemma sort_desc_sorted (l : list Candidate) :
  StronglySorted key_ge (sort_desc l).
Proof.
  induction l as [|a l IH]; simpl; [constructor | now apply insert_desc_sorted].
Qed.

(** X4.  The sort loses and invents no candidate, and leaves the whole list
    in descending order of the key [(score, position)]: each candidate has a
    key at least as great as every candidate after it. *)
Theorem potential_sections_sorted (text : str) :
  Permutation (potential_sections text) (find_sections text) /\
  StronglySorted key_ge (potential_sections text).
Proof.
  split; [apply sort_desc_perm | apply sort_desc_sorted].
Qed.

(** ** What the entries of each strategy look like *)

Lemma for_each_length {A B} (l : list A) (body : A -> result (list B)) :
  (forall a r, body a = Ok r -> (List.length r <= 1)%nat) ->
  forall r, for_each l body = Ok r -> (List.length r <= List.length l)%nat.
Proof.
  intros Hb. induction l as [|a l IH]; intros r H; simpl in H.
  - injection H as <-. simpl. lia.
  - destruct (body a) as [ra|] eqn:Ea; simpl in H; [|discriminate].
    destruct (for_each l body) as [rs|] eqn:Es; simpl in H; [|discriminate].
    injection H as <-. rewrite length_app. simpl.
    specialize (Hb a ra Ea). specialize (IH rs eq_refl). lia.
Qed.

Lemma for_each_Forall {A B} (P : B -> Prop) (l : list A)
  (body : A -> result (list B)) :
  (forall a r, In a l -> body a = Ok r -> Forall P r) ->
  forall r, for_each l body = Ok r -> Forall P r.
Proof.
  intros Hb r H. apply Forall_forall. intros e He.
  destruct (for_each_In _ _ _ _ H He) as (a & ra & Ha & Hra & Hera).
  specialize (Hb a ra Ha Hra). rewrite Forall_forall in Hb. now apply Hb.
Qed.

(** Reads the guard of an entry function whose groups are known. *)
Ltac read_guard H :=
  cbv zeta in H;
  repeat match type of H with
         | bind ?m _ = Ok _ =>
             let E := fresh "E" in
             destruct m eqn:E; cbn [bind] in H; [|discriminate H]
         end;
  match type of H with
  | (if ?g then _ else _) = Ok _ =>
      let G := fresh "G" in
      destruct g eqn:G; injection H as <-;
      [ repeat (apply andb_true_iff in G; destruct G as [G ?]);
        repeat match goal with
               | K : (_ <? _) = true |- _ => apply Z.ltb_lt in K
               end
      | ]
  end.

Lemma line_entry3_sound (m : list str) (r : list Experience) :
  line_entry3 m = Ok r ->
  (List.length r <= 1)%nat /\ Forall line_entry_sound r.
Proof.
  intros H. unfold line_entry3 in H.
  destruct m as [|g1 [|g2 [|g3 [|g4 m]]]]; try discriminate H.
  cbn [index nth_error bind] in H. read_guard H.
  - split; [simpl; lia|]. constructor; [|constructor].
    unfold line_entry_sound, entry. simpl. repeat split; assumption.
  - split; [simpl; lia | constructor].
Qed.

Lemma line_entry4_sound (m : list str) (r : list Experience) :
  line_entry4 m = Ok r ->
  (List.length r <= 1)%nat /\ Forall line_entry_sound r.
Proof.
  intros H. unfold line_entry4 in H.
  destruct m as [|g1 [|g2 [|g3 [|g4 m]]]]; try discriminate H.
  cbn [index nth_error bind] in H. read_guard H.
  - split; [simpl; lia|]. constructor; [|constructor].
    unfold line_entry_sound, entry. simpl. repeat split; assumption.
  - split; [simpl; lia | constructor].
Qed.

Lemma line_entry5_sound (m : list str) (r : list Experience) :
  line_entry5 m = Ok r ->
  (List.length r <= 1)%nat /\ Forall line_entry_sound r.
Proof.
  intros H. unfold line_entry5 in H.
  destruct m as [|g1 [|g2 m]]; try discriminate H.
  cbn [index nth_error bind] in H. read_guard H.
  - split; [simpl; lia|]. constructor; [|constructor].
    unfold line_entry_sound, entry. simpl. repeat split; assumption.
  - split; [simpl; lia | constructor].
Qed.

Lemma process_line_sound (line : str) (r : list Experience) :
  process_line line = Ok r ->
  (List.length r <= 1)%nat /\ Forall line_entry_sound r.
Proof.
  unfold process_line. cbv zeta.
  assert ((List.length (@nil Experience) <= 1)%nat /\
          Forall line_entry_sound []) as Hnil
    by (split; [simpl; lia | constructor]).
  destruct (strip line) as [|a l]; [intros H; now injection H as <-|].
  destruct (is_description_line (a :: l));
    [intros H; now injection H as <-|].
  destruct (re_search pattern3 (a :: l)); [apply line_entry3_sound|].
  destruct (re_search pattern4 (a :: l)); [apply line_entry4_sound|].
  destruct (re_search pattern5 (a :: l)); [apply line_entry5_sound|].
  intros H. now injection H as <-.
Qed.

(** X5.  The line-by-line strategy gives at most one entry per line of the
    block, and every entry it gives has a title and a company of more than
    three characters and no location and no description. *)
Theorem line_by_line_entries (experience_block : str) :
  exists entries,
    _extract_with_line_by_line_processing experience_block = Ok entries /\
    (List.length entries <= List.length (split experience_block nl))%nat /\
    Forall line_entry_sound entries.
Proof.
  destruct (line_by_line_ok experience_block) as [entries H].
  exists entries. split; [exact H|].
  unfold _extract_with_line_by_line_processing in H. cbv zeta in H. split.
  - eapply for_each_length; [|exact H].
    intros a r Ha. exact (proj1 (process_line_sound a r Ha)).
  - eapply for_each_Forall; [|exact H].
    intros a r _ Ha. exact (proj2 (process_line_sound a r Ha)).
Qed.

Lemma str_in_strip (h : ascii) (w : str) (t : ascii) (x : str) :
  is_space h = false -> is_space t = false ->
  str_in (h :: w ++ [t]) x = true -> str_in (h :: w ++ [t]) (strip x) = true.
Proof.
  intros Hh Ht H. apply str_in_true_iff in H. destruct H as (a & b & ->).
  apply str_in_true_iff. exact (strip_infix a h w t b Hh Ht).
Qed.

Lemma has_role_strip (x : str) : has_role x = true -> has_role (strip x) = true.
Proof.
  unfold has_role. rewrite !orb_true_iff.
  intros [[[H|H]|H]|H].
  - left. left. left.
    exact (str_in_strip "I" (py "nter") "n" x eq_refl eq_refl H).
  - left. left. right.
    exact (str_in_strip "D" (py "evelope") "r" x eq_refl eq_refl H).
  - left. right.
    exact (str_in_strip "E" (py "nginee") "r" x eq_refl eq_refl H).
  - right.
    exact (str_in_strip "M" (py "anage") "r" x eq_refl eq_refl H).
Qed.

Lemma entire_text_entry_sound (m : list str) (r : list Experience) :
  entire_text_entry m = Ok r ->
  Forall (fun e => has_role (title e) = true /\
                   location e = [] /\ description e = []) r.
Proof.
  unfold entire_text_entry. intros H.
  destruct (List.length m =? 4)%nat eqn:E4.
  - apply Nat.eqb_eq in E4.
    destruct m as [|a [|b [|c [|d [|? m]]]]]; try discriminate.
    simpl in H. destruct (has_role a) eqn:Ha; injection H as <-;
      constructor; [|constructor].
    simpl. split; [now apply has_role_strip | now split].
  - destruct (List.length m =? 2)%nat eqn:E2.
    + apply Nat.eqb_eq in E2.
      destruct m as [|a [|b [|? m]]]; try discriminate.
      simpl in H. destruct (has_role a) eqn:Ha; injection H as <-;
        constructor; [|constructor].
      simpl. split; [now apply has_role_strip | now split].
    + injection H as <-. constructor.
Qed.

(** X6.  Every entry of the whole-text strategy has a title that contains
    one of "Intern", "Developer", "Engineer", "Manager", and no location
    and no description. *)
Theorem entire_text_entries (text : str) :
  exists entries,
    _extract_experience_from_entire_text text = Ok entries /\
    Forall (fun e => has_role (title e) = true /\
                     location e = [] /\ description e = []) entries.
Proof.
  destruct (entire_text_ok text) as [entries H].
  exists entries. split; [exact H|].
  unfold _extract_experience_from_entire_text, scan_patterns in H.
  eapply for_each_Forall; [|exact H].
  intros p rp _ Hp. cbv zeta in Hp.
  eapply for_each_Forall; [|exact Hp].
  intros m rm _ Hm. exact (entire_text_entry_sound m rm Hm).
Qed.

(** A match changes only the groups of its expression. *)
Lemma matches_other_groups (r : regex) (w : str) (c c' : caps) :
  matches r w c c' ->
  forall j, ~ In j (group_ids r) -> c' j = c j.
Proof.
  induction 1 as [c|p a c Hp|r1 r2 w1 w2 c c1 c2 _ IH1 _ IH2
                  |r1 r2 w c c1 _ IH|r1 r2 w c c1 _ IH|r c
                  |r w1 w2 c c1 c2 _ IH1 _ IH2|i r w c c1 _ IH];
    intros j Hj; simpl in Hj; try reflexivity.
  - rewrite IH2, IH1; [reflexivity | |];
      intro; apply Hj; apply in_or_app; auto.
  - apply IH. intro; apply Hj; apply in_or_app; auto.
  - apply IH. intro; apply Hj; apply in_or_app; auto.
  - rewrite IH2, IH1; [reflexivity | exact Hj | exact Hj].
  - unfold set_group. destruct (Nat.eqb j i) eqn:E.
    + apply Nat.eqb_eq in E. exfalso. apply Hj. now left.
    + apply IH. intro. apply Hj. now right.
Qed.

Lemma matches_Cls_inv (p : ascii -> bool) (w : str) (c c' : caps) :
  matches (Cls p) w c c' -> exists a, w = [a] /\ p a = true.
Proof. intros H. inversion H; subst. eauto. Qed.

Lemma matches_chr_inv (a : ascii) (w : str) (c c' : caps) :
  matches (chr a) w c c' -> w = [a].
Proof.
  intros H. apply matches_Cls_inv in H. destruct H as (b & -> & E).
  apply Ascii.eqb_eq in E. now subst.
Qed.

Lemma matches_year (w : str) (c c' : caps) :
  matches year w c c' -> is_year w = true.
Proof.
  intros H. apply matches_Alt_inv in H. destruct H as [H|H].
  - apply matches_lit in H. now subst.
  - unfold digit4 in H.
    apply matches_Cat_inv in H. destruct H as (w1 & ? & ? & -> & H1 & H).
    apply matches_Cat_inv in H. destruct H as (w2 & ? & ? & -> & H2 & H).
    apply matches_Cat_inv in H. destruct H as (w3 & w4 & ? & -> & H3 & H4).
    apply matches_Cls_inv in H1, H2, H3, H4.
    destruct H1 as (a1 & -> & E1), H2 as (a2 & -> & E2),
             H3 as (a3 & -> & E3), H4 as (a4 & -> & E4).
    unfold is_year. simpl. rewrite E1, E2, E3, E4. apply orb_true_r.
Qed.

(** The first group of a date-first pattern is a year, and so is the
    second group of the second pattern. *)
Lemma date_pattern1_groups (w : str) (c0 c : caps) :
  matches (rx (nth 0 date_patterns pipe_pattern)) w c0 c ->
  is_year (c 1%nat) = true.
Proof.
  intros H. cbn [nth date_patterns rx cat] in H.
  apply matches_Cat_inv in H. destruct H as (w1 & w2 & c1 & -> & H1 & H).
  rewrite (matches_other_groups _ _ _ _ H 1%nat)
    by (vm_compute; intuition discriminate).
  apply matches_Grp_inv in H1. destruct H1 as (c1' & H1 & ->).
  rewrite set_group_same. exact (matches_year _ _ _ H1).
Qed.

Lemma date_pattern2_groups (w : str) (c0 c : caps) :
  matches (rx (nth 1 date_patterns pipe_pattern)) w c0 c ->
  is_year (c 1%nat) = true /\ is_year (c 2%nat) = true.
Proof.
  intros H. cbn [nth date_patterns rx cat] in H.
  apply matches_Cat_inv in H. destruct H as (w1 & w2 & c1 & -> & H1 & H).
  split.
  - rewrite (matches_other_groups _ _ _ _ H 1%nat)
      by (vm_compute; intuition discriminate).
    apply matches_Grp_inv in H1. destruct H1 as (c1' & H1 & ->).
    rewrite set_group_same. exact (matches_year _ _ _ H1).
  - apply matches_Cat_inv in H. destruct H as (w3 & w4 & c2 & -> & _ & H).
    apply matches_Cat_inv in H. destruct H as (w5 & w6 & c3 & -> & H2 & H).
    rewrite (matches_other_groups _ _ _ _ H 2%nat)
      by (vm_compute; intuition discriminate).
    apply matches_Grp_inv in H2. destruct H2 as (c2' & H2 & ->).
    rewrite set_group_same. exact (matches_year _ _ _ H2).
Qed.

Lemma date_first_entry_dates (m : list str) (r : list Experience)
  (e : Experience) :
  date_first_entry m = Ok r -> In e r ->
  description e = [] /\
  ((exists a b c d,
      m = [a; b; c; d] /\ start_date e = a /\ end_date e = py "Present") \/
   (exists a b c d f,
      m = [a; b; c; d; f] /\ start_date e = a /\ end_date e = b)).
Proof.
  unfold date_first_entry. intros H He.
  destruct (List.length m =? 4)%nat eqn:E4.
  - apply Nat.eqb_eq in E4.
    destruct m as [|a [|b [|c [|d [|? m]]]]]; try discriminate.
    cbn [index nth_error bind] in H.
    destruct (date_first_title_company b c) as [[t co]|]; cbn [bind] in H;
      [|discriminate].
    injection H as <-. destruct He as [<-|[]]. simpl.
    split; [reflexivity|]. left. now exists a, b, c, d.
  - destruct (List.length m =? 5)%nat eqn:E5.
    + apply Nat.eqb_eq in E5.
      destruct m as [|a [|b [|c [|d [|f [|? m]]]]]]; try discriminate.
      cbn [index nth_error bind] in H.
      destruct (date_first_title_company c d) as [[t co]|]; cbn [bind] in H;
        [|discriminate].
      injection H as <-. destruct He as [<-|[]]. simpl.
      split; [reflexivity|]. right. now exists a, b, c, d, f.
    + injection H as <-. destruct He.
Qed.

(** X7.  Every entry of the date-first strategy has as start date "20XX"
    or four digits, as end date "Present", "20XX" or four digits, and no
    description. *)
Theorem date_first_entries (experience_block : str) :
  exists entries,
    _extract_with_date_first_format experience_block = Ok entries /\
    Forall (fun e => is_year (start_date e) = true /\
                     (end_date e = py "Present" \/
                      is_year (end_date e) = true) /\
                     description e = []) entries.
Proof.
  destruct (date_first_ok experience_block) as [entries H].
  exists entries. split; [exact H|].
  unfold _extract_with_date_first_format in H.
  apply Forall_forall. intros e He.
  destruct (for_each_In _ _ _ _ H He) as (p & rp & Hp & Hrp & Hep).
  cbv zeta in Hrp.
  destruct (for_each_In _ _ _ _ Hrp Hep) as (m & rm & Hm & Hrm & Hem).
  destruct (date_first_entry_dates _ _ _ Hrm Hem) as [Hd Hcases].
  pose proof (re_findall_length _ _ _ Hm) as Hlen.
  destruct (findall_go_match _ _ _ _ Hm) as (y & c & rest & Hy & Hg).
  apply match_here_sound in Hy. destruct Hy as (w & _ & Hy).
  destruct Hp as [<-|[<-|[]]].
  - pose proof (date_pattern1_groups _ _ _ Hy) as H1.
    destruct Hcases as [(a & b & c' & d & -> & -> & ->)
                       |(a & b & c' & d & f & -> & _)];
      [|discriminate Hlen].
    unfold groups in Hg. simpl in Hg. injection Hg as -> _ _ _.
    split; [exact H1|]. split; [now left | exact Hd].
  - destruct (date_pattern2_groups _ _ _ Hy) as [H1 H2].
    destruct Hcases as [(a & b & c' & d & -> & _)
                       |(a & b & c' & d & f & -> & -> & ->)];
      [discriminate Hlen|].
    unfold groups in Hg. simpl in Hg. injection Hg as -> -> _ _ _.
    split; [exact H1|]. split; [now right | exact Hd].
Qed.

(** ** Texts a strategy cannot read *)

Lemma str_in_char (a : ascii) (x : str) : str_in [a] x = true <-> In a x.
Proof.
  rewrite str_in_true_iff. split.
  - intros (p & q & ->). apply in_or_app. right. now left.
  - intros H. apply in_split in H. destruct H as (p & q & ->).
    now exists p, q.
Qed.

Lemma str_in_char_false (a : ascii) (x : str) :
  str_in [a] x = false -> ~ In a x.
Proof. intros H Hin. apply str_in_char in Hin. congruence. Qed.

Lemma needs_chr (a : ascii) : needs a (chr a).
Proof. intros w c c' H. apply matches_chr_inv in H. subst. now left. Qed.

Lemma needs_Cat_l (a : ascii) (r1 r2 : regex) :
  needs a r1 -> needs a (Cat r1 r2).
Proof.
  intros H w c c' M. apply matches_Cat_inv in M.
  destruct M as (w1 & w2 & c1 & -> & M1 & _).
  apply in_or_app. left. exact (H _ _ _ M1).
Qed.

Lemma needs_Cat_r (a : ascii) (r1 r2 : regex) :
  needs a r2 -> needs a (Cat r1 r2).
Proof.
  intros H w c c' M. apply matches_Cat_inv in M.
  destruct M as (w1 & w2 & c1 & -> & _ & M2).
  apply in_or_app. right. exact (H _ _ _ M2).
Qed.

Ltac find_needed :=
  cbn [rx cat];
  repeat first [ apply needs_chr
               | apply needs_Cat_l; apply needs_chr
               | apply needs_Cat_r ].

(** Every tuple of [findall] is the groups of a match anchored somewhere
    in the text. *)
Lemma findall_go_inside (p : pattern) (x : str) :
  forall skip m,
    In m (findall_go p skip x) ->
    exists pre y c rest,
      x = pre ++ y /\ match_here (rx p) y = Some (c, rest) /\ m = groups p c.
Proof.
  induction x as [|a x IH]; intros [|k] m; simpl.
  - destruct (match_here (rx p) []) as [[c rest]|] eqn:E; simpl.
    + intros [<-|[]]. now exists [], [], c, rest.
    + intros [].
  - intros [].
  - destruct (match_here (rx p) (a :: x)) as [[c rest]|] eqn:E; simpl.
    + intros [<-|H]; [now exists [], (a :: x), c, rest|].
      destruct (IH _ _ H) as (pre & y & c' & rest' & -> & Hy & Hm).
      now exists (a :: pre), y, c', rest'.
    + intros H. destruct (IH _ _ H) as (pre & y & c' & rest' & -> & Hy & Hm).
      now exists (a :: pre), y, c', rest'.
  - intros H. destruct (IH _ _ H) as (pre & y & c' & rest' & -> & Hy & Hm).
    now exists (a :: pre), y, c', rest'.
Qed.

Lemma re_search_inside (p : pattern) (x : str) (m : list str) :
  re_search p x = Some m ->
  exists pre y c rest,
    x = pre ++ y /\ match_here (rx p) y = Some (c, rest) /\ m = groups p c.
Proof.
  induction x as [|a x IH]; simpl;
    destruct (match_here (rx p) _) as [[c rest]|] eqn:E; intros H.
  - injection H as <-. now exists [], [], c, rest.
  - discriminate.
  - injection H as <-. now exists [], (a :: x), c, rest.
  - destruct (IH H) as (pre & y & c' & rest' & -> & Hy & Hm).
    now exists (a :: pre), y, c', rest'.
Qed.

Lemma needed_char_inside (a : ascii) (p : pattern) (pre y : str)
  (c : caps) (rest : str) :
  needs a (rx p) -> match_here (rx p) y = Some (c, rest) ->
  In a (pre ++ y).
Proof.
  intros Hn Hy. apply match_here_sound in Hy. destruct Hy as (w & -> & M).
  apply in_or_app. right. apply in_or_app. left. exact (Hn _ _ _ M).
Qed.

(** A pattern finds nothing in a text that lacks a character it needs. *)
Lemma re_findall_needs (a : ascii) (p : pattern) (x : str) :
  needs a (rx p) -> ~ In a x -> re_findall p x = [].
Proof.
  intros Hn Hx. unfold re_findall.
  destruct (findall_go p 0 x) as [|m ms] eqn:E; [reflexivity|].
  exfalso. apply Hx.
  destruct (findall_go_inside p x O m) as (pre & y & c & rest & -> & Hy & _);
    [rewrite E; now left|].
  exact (needed_char_inside a p pre y c rest Hn Hy).
Qed.

Lemma re_search_needs (a : ascii) (p : pattern) (x : str) :
  needs a (rx p) -> ~ In a x -> re_search p x = None.
Proof.
  intros Hn Hx. destruct (re_search p x) as [m|] eqn:E; [|reflexivity].
  exfalso. apply Hx.
  destruct (re_search_inside p x m E) as (pre & y & c & rest & -> & Hy & _).
  exact (needed_char_inside a p pre y c rest Hn Hy).
Qed.

(** X8.  The pipe-format strategy gives nothing on a block that lacks a
    bar, an opening parenthesis or a closing parenthesis. *)
Theorem pipe_format_needs_delimiters (experience_block : str)
  (Hlack : str_in (py "|") experience_block = false \/
           str_in (py "(") experience_block = false \/
           str_in (py ")") experience_block = false) :
  _extract_with_pipe_format experience_block = Ok [].
Proof.
  unfold _extract_with_pipe_format. cbv zeta.
  assert (re_findall pipe_pattern experience_block = []) as ->;
    [|reflexivity].
  destruct Hlack as [H|[H|H]]; apply str_in_char_false in H.
  - apply (re_findall_needs "|"); [unfold pipe_pattern; find_needed | exact H].
  - apply (re_findall_needs "("); [unfold pipe_pattern; find_needed | exact H].
  - apply (re_findall_needs ")"); [unfold pipe_pattern; find_needed | exact H].
Qed.

Lemma pipe_format_needs_delimiters_witness :
  _extract_with_pipe_format (py "Software Engineer | TechCorp, Jan 2020")
  = Ok [].
Proof.
  apply pipe_format_needs_delimiters. right. left. reflexivity.
Defined.

Lemma lstrip_incl (x : str) (a : ascii) : In a (lstrip x) -> In a x.
Proof.
  induction x as [|c x IH]; simpl; [auto|].
  destruct (is_space c); [intros H; right; now apply IH | auto].
Qed.

Lemma strip_incl (x : str) (a : ascii) : In a (strip x) -> In a x.
Proof.
  unfold strip, rstrip. intros H.
  apply in_rev, lstrip_incl, in_rev, lstrip_incl in H. exact H.
Qed.

Lemma split_go_incl (sep : str) (x : str) :
  forall skip cur piece a,
    In piece (split_go sep skip cur x) -> In a piece ->
    In a cur \/ In a x.
Proof.
  induction x as [|c x IH]; intros skip cur piece a Hp Ha.
  - simpl in Hp. destruct Hp as [<-|[]]. left. now apply in_rev.
  - rewrite split_go_cons in Hp. destruct skip as [|k].
    + destruct (startswith (c :: x) sep).
      * destruct Hp as [<-|Hp]; [left; now apply in_rev|].
        destruct (IH _ _ _ _ Hp Ha) as [[]|H]. right. now right.
      * destruct (IH _ _ _ _ Hp Ha) as [[<-|H]|H];
          [right; now left | now left | right; now right].
    + destruct (IH _ _ _ _ Hp Ha) as [H|H]; [now left | right; now right].
Qed.

Lemma split_incl (x sep piece : str) (a : ascii) :
  In piece (split x sep) -> In a piece -> In a x.
Proof.
  intros Hp Ha. destruct (split_go_incl sep x O [] piece a Hp Ha) as [[]|H].
  exact H.
Qed.

Lemma process_line_needs_hyphen (line : str) :
  ~ In "-"%char line -> process_line line = Ok [].
Proof.
  intros H. unfold process_line. cbv zeta.
  assert (~ In "-"%char (strip line)) as Hs
    by (intro Hin; apply H; now apply strip_incl).
  destruct (strip line) as [|a l]; [reflexivity|].
  destruct (is_description_line (a :: l)); [reflexivity|].
  rewrite (re_search_needs "-" pattern3)
    by (try exact Hs; unfold pattern3; find_needed).
  rewrite (re_search_needs "-" pattern4)
    by (try exact Hs; unfold pattern4; find_needed).
  rewrite (re_search_needs "-" pattern5)
    by (try exact Hs; unfold pattern5; find_needed).
  reflexivity.
Qed.

(** X9.  On a text without a hyphen the line-by-line strategy and the
    whole-text strategy give nothing: each of their patterns needs one. *)
Theorem hyphen_free_text_gives_nothing (text : str)
  (Hfree : str_in (py "-") text = false) :
  _extract_with_line_by_line_processing text = Ok [] /\
  _extract_experience_from_entire_text text = Ok [].
Proof.
  apply str_in_char_false in Hfree. split.
  - unfold _extract_with_line_by_line_processing. cbv zeta.
    apply for_each_nothing. intros line Hline.
    apply process_line_needs_hyphen. intro Hin. apply Hfree.
    exact (split_incl _ _ _ _ Hline Hin).
  - unfold _extract_experience_from_entire_text, scan_patterns.
    apply for_each_nothing. intros p Hp. cbv zeta.
    assert (re_findall p text = []) as ->; [|reflexivity].
    apply (re_findall_needs "-"); [|exact Hfree].
    destruct Hp as [<-|[<-|[<-|[]]]];
      [unfold job_pattern1 | unfold job_pattern2 | unfold job_pattern3];
      find_needed.
Qed.

Lemma hyphen_free_text_gives_nothing_witness :
  _extract_experience_from_entire_text
    (py "Software Engineer at Acme, 2019 to 2021")
  = Ok [].
Proof.
  refine (proj2 (hyphen_free_text_gives_nothing
                   (py "Software Engineer at Acme, 2019 to 2021") _)).
  reflexivity.
Defined.

(** * The cleaning of the text *)

Example clean_text_sample :
  clean_text (nl ++ py "  John  Doe" ++ nl ++ nl ++ py "C++ & C# | 50% * (remote)  ")
  = py "John Doe C++  C  50  (remote)".
Proof. vm_compute. reflexivity. Qed.

(** ** What [strip] leaves *)

Lemma lstrip_length (x : str) : (List.length (lstrip x) <= List.length x)%nat.
Proof.
  induction x as [|c x IH]; simpl; [lia|].
  destruct (is_space c); simpl; lia.
Qed.

Lemma lstrip_idem (x : str) : lstrip (lstrip x) = lstrip x.
Proof.
  induction x as [|c x IH]; simpl; [reflexivity|].
  destruct (is_space c) eqn:E; [exact IH|]. simpl. now rewrite E.
Qed.

Lemma lstrip_split (x : str) :
  exists s, x = s ++ lstrip x /\ Forall (fun c => is_space c = true) s.
Proof.
  induction x as [|c x IH]; simpl.
  - exists []. split; [reflexivity | constructor].
  - destruct (is_space c) eqn:E.
    + destruct IH as (s & Hx & Hs). exists (c :: s). split.
      * simpl. now rewrite <- Hx.
      * now constructor.
    + exists []. split; [reflexivity | constructor].
Qed.

Lemma lstrip_fixed_head (h : ascii) (x : str) :
  lstrip (h :: x) = h :: x -> is_space h = false.
Proof.
  simpl. destruct (is_space h); [|reflexivity].
  intros E. pose proof (lstrip_length x) as L. rewrite E in L. simpl in L. lia.
Qed.

Lemma lstrip_rstrip (y : str) : lstrip y = y -> lstrip (rstrip y) = rstrip y.
Proof.
  intros Hy. unfold rstrip.
  destruct (lstrip_split (rev y)) as (s & Hrev & _).
  assert (y = rev (lstrip (rev y)) ++ rev s) as Hsplit.
  { rewrite <- (rev_involutive y) at 1. rewrite Hrev at 1.
    apply rev_app_distr. }
  destruct (rev (lstrip (rev y))) as [|h t] eqn:E; [reflexivity|].
  rewrite Hsplit in Hy. simpl in Hy.
  assert (is_space h = false) as Hh by (eapply lstrip_fixed_head; exact Hy).
  simpl. now rewrite Hh.
Qed.

Lemma strip_idem (x : str) : strip (strip x) = strip x.
Proof.
  unfold strip.
  rewrite (lstrip_rstrip (lstrip x) (lstrip_idem x)).
  unfold rstrip. now rewrite rev_involutive, lstrip_idem.
Qed.

(** ** The three substitutions *)

Lemma star_rounds_answers (step : str -> caps -> cont -> option (caps * str))
  (n : nat) (x : str) (c : caps) :
  star_rounds step (fun x1 c1 => Some (c1, x1)) n x c <> None.
Proof.
  destruct n; simpl; [discriminate|].
  destruct (step x c _); discriminate.
Qed.

(** A run of characters of a class matches exactly where the text begins
    with one of them, and then consumes something. *)
Lemma match_here_run (p : ascii -> bool) (x : str) :
  match match_here (plus (Cls p)) x with
  | Some (_, rest) =>
      (List.length rest < List.length x)%nat /\
      exists a x', x = a :: x' /\ p a = true
  | None => match x with [] => True | a :: _ => p a = false end
  end.
Proof.
  destruct (match_here (plus (Cls p)) x) as [[c rest]|] eqn:E.
  - apply match_here_sound in E. destruct E as (w & -> & M).
    unfold plus in M. apply matches_Cat_inv in M.
    destruct M as (w1 & w2 & c1 & -> & M1 & _).
    apply matches_Cls_inv in M1. destruct M1 as (a & -> & Ha).
    split; [rewrite !length_app; simpl; lia|].
    simpl. eauto.
  - destruct x as [|a x]; [exact I|].
    unfold match_here, plus in E. simpl in E.
    destruct (p a); [|reflexivity].
    exfalso. revert E. apply star_rounds_answers.
Qed.

Lemma sub_go_nil (p : pattern) (repl : str) :
  sub_go p repl O [] =
  match match_here (rx p) [] with Some _ => repl | None => [] end.
Proof. simpl. destruct (match_here (rx p) []) as [[c rest]|]; reflexivity. Qed.

Lemma sub_go_cons (p : pattern) (repl : str) (a : ascii) (x : str) :
  sub_go p repl O (a :: x) =
  match match_here (rx p) (a :: x) with
  | Some (_, rest) =>
      if (List.length rest <? List.length (a :: x))%nat
      then repl ++ sub_go p repl
                     (List.length (a :: x) - List.length rest - 1) x
      else repl ++ a :: sub_go p repl O x
  | None => a :: sub_go p repl O x
  end.
Proof. reflexivity. Qed.

(** A substitution whose pattern matches nowhere changes nothing. *)
Lemma sub_go_no_match (p : pattern) (repl : str) (x : str) :
  (forall pre y, x = pre ++ y -> match_here (rx p) y = None) ->
  sub_go p repl O x = x.
Proof.
  induction x as [|a x IH]; intros H.
  - rewrite sub_go_nil. now rewrite (H [] [] eq_refl).
  - rewrite sub_go_cons, (H [] (a :: x) eq_refl). f_equal. apply IH.
    intros pre y ->. exact (H (a :: pre) y eq_refl).
Qed.

Lemma re_sub_nl_run_no_newline (x : str) :
  ~ In "010"%char x -> re_sub nl_run nl x = x.
Proof.
  intros H. apply sub_go_no_match. intros pre y ->.
  pose proof (match_here_run (Ascii.eqb "010") y) as M.
  change (rx nl_run) with (plus (Cls (Ascii.eqb "010"))).
  destruct (match_here (plus (Cls (Ascii.eqb "010"))) y) as [[c rest]|];
    [|reflexivity].
  destruct M as (_ & a & x' & -> & Ha). apply Ascii.eqb_eq in Ha. subst a.
  exfalso. apply H. apply in_or_app. right. now left.
Qed.

(** After the first substitution the only white space left is the blank. *)
Lemma sub_go_ws_run (x : str) :
  forall skip,
    Forall (fun c => is_space c = true -> c = " "%char)
           (sub_go ws_run (py " ") skip x).
Proof.
  induction x as [|a x IH]; intros [|k].
  - rewrite sub_go_nil. change (rx ws_run) with (plus (Cls is_space)).
    pose proof (match_here_run is_space []) as M.
    destruct (match_here (plus (Cls is_space)) []) as [[c rest]|];
      [|constructor].
    destruct M as (_ & a & x' & E & _). discriminate E.
  - constructor.
  - rewrite sub_go_cons. change (rx ws_run) with (plus (Cls is_space)).
    pose proof (match_here_run is_space (a :: x)) as M.
    destruct (match_here (plus (Cls is_space)) (a :: x)) as [[c rest]|].
    + destruct M as (L & _). apply Nat.ltb_lt in L. rewrite L.
      constructor; [reflexivity | apply IH].
    + constructor; [intros Ha; congruence | apply IH].
  - apply IH.
Qed.

Lemma re_sub_ws_run_no_newline (x : str) :
  ~ In "010"%char (re_sub ws_run (py " ") x).
Proof.
  intros H. pose proof (sub_go_ws_run x O) as F.
  rewrite Forall_forall in F. specialize (F _ H eq_refl). discriminate F.
Qed.

(** The third substitution keeps the characters of the class, in order. *)
Lemma re_sub_special_char (x : str) :
  re_sub special_char [] x = filter is_kept x.
Proof.
  unfold re_sub. induction x as [|a x IH]; [reflexivity|].
  rewrite sub_go_cons.
  change (match_here (rx special_char) (a :: x))
    with (if negb (is_kept a) then Some (no_caps, x) else None).
  simpl filter. destruct (is_kept a); simpl negb; cbv iota.
  - now rewrite IH.
  - change (List.length (a :: x)) with (S (List.length x)).
    assert ((List.length x <? S (List.length x))%nat = true) as ->
      by (apply Nat.ltb_lt; lia).
    replace (S (List.length x) - List.length x - 1)%nat with O by lia.
    exact IH.
Qed.

Lemma clean_text_newline_step_is_idle_aux (text : str) :
  re_sub nl_run nl (re_sub ws_run (py " ") text)
  = re_sub ws_run (py " ") text.
Proof. apply re_sub_nl_run_no_newline, re_sub_ws_run_no_newline. Qed.

(** X10.  In [clean_text] the substitution of "\n+" changes nothing: the
    substitution of "\s+" before it has already turned every newline into a
    blank. *)
Theorem clean_text_newline_step_is_idle (text : str) :
  re_sub nl_run nl (re_sub ws_run (py " ") text)
  = re_sub ws_run (py " ") text.
Proof. apply clean_text_newline_step_is_idle_aux. Qed.

Lemma clean_text_unfold (text : str) :
  clean_text text
  = if is_empty text then []
    else strip (filter is_kept (re_sub ws_run (py " ") text)).
Proof.
  unfold clean_text. cbv zeta.
  now rewrite clean_text_newline_step_is_idle_aux, re_sub_special_char.
Qed.

(** ** The shape of a cleaned text *)

Lemma kept_is_clean (c : ascii) :
  is_kept c = true -> (is_space c = true -> c = " "%char) ->
  is_clean_char c = true.
Proof.
  unfold is_kept, is_clean_char. intros Hk Hs.
  destruct (is_space c) eqn:E.
  - rewrite (Hs eq_refl). reflexivity.
  - destruct (Ascii.eqb c "010") eqn:En.
    + apply Ascii.eqb_eq in En. subst c. discriminate E.
    + rewrite !orb_false_r in Hk. simpl in Hk.
      destruct (is_word c); [reflexivity|]. simpl in *.
      rewrite Hk. apply orb_true_r.
Qed.

Lemma clean_text_chars (text : str) (c : ascii) :
  In c (clean_text text) ->
  is_kept c = true /\ (is_space c = true -> c = " "%char).
Proof.
  rewrite clean_text_unfold. destruct (is_empty text); [intros []|].
  intros H. apply strip_incl, filter_In in H. destruct H as [H Hk].
  split; [exact Hk|].
  pose proof (sub_go_ws_run text O) as F. rewrite Forall_forall in F.
  exact (F c H).
Qed.

Lemma clean_text_no_newline (text : str) : ~ In "010"%char (clean_text text).
Proof.
  intros Hc. pose proof (proj2 (clean_text_chars _ _ Hc) eq_refl) as E.
  discriminate E.
Qed.

(** X11.  In a text returned by [clean_text] the only white space is the
    blank, so it has no newline and no tab, and it neither begins nor ends
    with white space.  When the text given is ASCII, the text returned
    consists of ASCII letters, digits, underscores, blanks and the
    punctuation marks "-.@()+,:;" only. *)
Theorem clean_text_shape (text : str) :
  Forall (fun c => is_space c = true -> c = " "%char) (clean_text text) /\
  ~ In "010"%char (clean_text text) /\
  trimmed (clean_text text) /\
  (Forall (fun c => is_ascii c = true) text ->
   Forall (fun c => is_clean_char c = true) (clean_text text)).
Proof.
  split; [|split; [|split]].
  - apply Forall_forall. intros c Hc.
    exact (proj2 (clean_text_chars _ _ Hc)).
  - apply clean_text_no_newline.
  - unfold trimmed. rewrite clean_text_unfold.
    destruct (is_empty text); [reflexivity | apply strip_idem].
  - intros _. apply Forall_forall. intros c Hc.
    destruct (clean_text_chars _ _ Hc). now apply kept_is_clean.
Qed.

Lemma clean_text_shape_witness :
  Forall (fun c => is_clean_char c = true)
         (clean_text (py "C++ & C# | 50% * (remote)")).
Proof.
  apply (proj2 (proj2 (proj2
           (clean_text_shape (py "C++ & C# | 50% * (remote)"))))).
  apply Forall_forall, forallb_forall. reflexivity.
Defined.

(** ** What the engine receives from the cleaning *)

Lemma firstn_incl_In {A} (n : nat) (l : list A) (a : A) :
  In a (firstn n l) -> In a l.
Proof.
  intros H. rewrite <- (firstn_skipn n l). apply in_or_app. now left.
Qed.

Lemma skipn_incl_In {A} (n : nat) (l : list A) (a : A) :
  In a (skipn n l) -> In a l.
Proof.
  intros H. rewrite <- (firstn_skipn n l). apply in_or_app. now right.
Qed.

(** The characters of a block are characters of the document. *)
Lemma sec_text_incl (text : str) (c : Candidate) (a : ascii) :
  In c (find_sections text) -> In a (sec_text c) -> In a text.
Proof.
  intros Hc Ha. destruct (find_sections_In _ _ Hc) as (_ & Ht & _).
  rewrite Ht in Ha. unfold after_header_of in Ha.
  destruct (section_text_of_cases
              (skipn (Z.to_nat (sec_position c + len (sec_header c))) text))
    as [[_ E]|(i & _ & E)]; rewrite E in Ha; apply strip_incl in Ha.
  - eapply skipn_incl_In. exact Ha.
  - eapply skipn_incl_In, firstn_incl_In. exact Ha.
Qed.

Lemma startswith_head (y : str) (a : ascii) (sep : str) :
  startswith y (a :: sep) = true -> In a y.
Proof.
  intros H. apply startswith_inv in H. destruct H as [r ->]. now left.
Qed.

(** A text in which the separator begins nowhere is one piece. *)
Lemma split_go_one_piece (a : ascii) (sep x : str) :
  ~ In a x -> forall cur, split_go (a :: sep) O cur x = [rev cur ++ x].
Proof.
  induction x as [|c x IH]; intros H cur.
  - simpl. now rewrite app_nil_r.
  - rewrite split_go_cons.
    destruct (startswith (c :: x) (a :: sep)) eqn:E.
    + exfalso. apply H. exact (startswith_head _ _ _ E).
    + rewrite IH by (intro; apply H; now right).
      simpl. now rewrite <- app_assoc.
Qed.

Lemma split_one_piece (a : ascii) (sep x : str) :
  ~ In a x -> split x (a :: sep) = [x].
Proof. intros H. unfold split. now rewrite split_go_one_piece. Qed.

(** X12.  In a cleaned text every block is a single line: the line-by-line
    strategy, which splits the block at newlines, reads the whole block as
    one line and gives at most one entry. *)
Theorem cleaned_block_is_one_line (raw : str) :
  Forall (fun c =>
            split (sec_text c) nl = [sec_text c] /\
            exists entries,
              _extract_with_line_by_line_processing (sec_text c) = Ok entries /\
              (List.length entries <= 1)%nat)
         (find_sections (clean_text raw)).
Proof.
  apply Forall_forall. intros c Hc.
  assert (~ In "010"%char (sec_text c)) as Hnl.
  { intros H. apply (clean_text_no_newline raw).
    exact (sec_text_incl _ _ _ Hc H). }
  pose proof (split_one_piece "010" [] _ Hnl) as Hsplit.
  split; [exact Hsplit|].
  destruct (line_by_line_ok (sec_text c)) as [entries H].
  exists entries. split; [exact H|].
  unfold _extract_with_line_by_line_processing in H. cbv zeta in H.
  change nl with ["010"%char] in H. rewrite Hsplit in H.
  change 1%nat with (List.length [sec_text c]).
  eapply for_each_length; [|exact H].
  intros a r Ha. exact (proj1 (process_line_sound a r Ha)).
Qed.

(** * The summary *)

Example summary_after_header :
  _extract_summary
    (py "Jane Doe" ++ nl ++ py "Summary" ++ nl ++ py "  Backend developer. " ++ nl
        ++ nl ++ py "Ten years." ++ nl ++ py "Skills" ++ nl ++ py "Python")
  = Some (py "BACKEND DEVELOPER." ++ nl ++ py "TEN YEARS.").
Proof. vm_compute. reflexivity. Qed.

Lemma firstn_non_empty (n : nat) (x : str) :
  (0 < n)%nat -> x <> [] ->
  0 < len (firstn n x) <= Z.of_nat n.
Proof.
  intros Hn Hx. unfold len. rewrite length_firstn.
  destruct x; [congruence|]. simpl List.length. lia.
Qed.

Lemma summary_from_patterns_length (patterns : list (str * list str))
  (x s : str) :
  summary_from_patterns patterns x = Some s -> 0 < len s <= 500.
Proof.
  induction patterns as [|[header stops] rest IH];
    cbn [summary_from_patterns]; [discriminate|].
  destruct (search_section header stops x) as [summary_text|]; [|exact IH].
  cbv zeta.
  destruct (negb (is_empty (summary_of_section summary_text))) eqn:E;
    [|exact IH].
  intros H. injection H as <-.
  apply (firstn_non_empty 500); [lia|].
  intros E0. rewrite E0 in E. discriminate E.
Qed.

(** X13.  A summary that [_extract_summary] returns is never empty and
    never longer than 500 characters. *)
Theorem summary_length (text summary : str)
  (H : _extract_summary text = Some summary) :
  0 < len summary <= 500.
Proof.
  unfold _extract_summary in H.
  destruct (summary_from_patterns summary_patterns (upper text)) as [s|] eqn:E.
  - injection H as <-. exact (summary_from_patterns_length _ _ _ E).
  - cbv zeta in H. destruct (split text (nl ++ nl)) as [|first rest];
      [discriminate|].
    destruct (50 <? len first) eqn:L; [|discriminate].
    injection H as <-. apply Z.ltb_lt in L.
    apply (firstn_non_empty 500); [lia|].
    intros ->. unfold len in L. simpl in L. lia.
Qed.

Lemma summary_length_witness :
  0 < len (py "BACKEND DEVELOPER.") <= 500.
Proof.
  apply (summary_length
           (py "Summary" ++ nl ++ py "Backend developer." ++ nl ++ py "Skills")).
  vm_compute. reflexivity.
Defined.

(** ** Letter case *)

Lemma to_upper_not_lower (c : ascii) : is_lower (to_upper c) = false.
Proof.
  destruct c as [[|] [|] [|] [|] [|] [|] [|] [|]]; reflexivity.
Qed.

Lemma to_upper_newline (c : ascii) : to_upper c = "010"%char -> c = "010"%char.
Proof.
  destruct c as [[|] [|] [|] [|] [|] [|] [|] [|]];
    vm_compute; intros H; first [reflexivity | discriminate H].
Qed.

Lemma upper_no_newline (x : str) :
  ~ In "010"%char x -> ~ In "010"%char (upper x).
Proof.
  intros H Hin. unfold upper in Hin. apply in_map_iff in Hin.
  destruct Hin as (c & Hc & Hin). apply to_upper_newline in Hc. now subst.
Qed.

Lemma lazy_until_incl (stops : list str) (x : str) (a : ascii) :
  In a (lazy_until stops x) -> In a x.
Proof.
  induction x as [|c x IH]; simpl.
  - destruct (section_ahead stops []); auto.
  - destruct (section_ahead stops (c :: x)); [intros []|].
    intros [->|H]; [now left | right; now apply IH].
Qed.

(** The section found is made of characters of the text. *)
Lemma search_section_incl (header : str) (stops : list str) (x s : str)
  (a : ascii) :
  search_section header stops x = Some s -> In a s -> In a x.
Proof.
  unfold search_section.
  destruct (index_of header x) as [i|] eqn:E; [|discriminate].
  intros H Ha. injection H as <-.
  destruct (index_of_Some _ _ _ E) as [(p & q & -> & _) _].
  apply in_app_or in Ha. destruct Ha as [Ha|Ha].
  - apply in_or_app. right. apply in_or_app. now left.
  - apply lazy_until_incl, skipn_incl_In in Ha. exact Ha.
Qed.

(** A section without a newline has no line after its header line. *)
Lemma summary_of_one_line (s : str) :
  ~ In "010"%char s -> summary_of_section s = [].
Proof.
  intros H. unfold summary_of_section. cbv zeta.
  change nl with ["010"%char]. now rewrite (split_one_piece "010" [] s H).
Qed.

Lemma summary_from_patterns_one_line (patterns : list (str * list str))
  (x : str) :
  ~ In "010"%char x -> summary_from_patterns patterns x = None.
Proof.
  intros H. induction patterns as [|[header stops] rest IH];
    cbn [summary_from_patterns]; [reflexivity|].
  destruct (search_section header stops x) as [s|] eqn:E; [|exact IH].
  cbv zeta. rewrite summary_of_one_line; [exact IH|].
  intros Hin. apply H. exact (search_section_incl _ _ _ _ _ E Hin).
Qed.

Lemma extract_summary_one_line (text : str) :
  ~ In "010"%char text ->
  _extract_summary text
  = if 50 <? len text then Some (firstn 500 text) else None.
Proof.
  intros H. unfold _extract_summary.
  rewrite summary_from_patterns_one_line by now apply upper_no_newline.
  cbv zeta. change (nl ++ nl) with ["010"%char; "010"%char].
  now rewrite (split_one_piece "010" ["010"%char] text H).
Qed.

(** X14.  On a cleaned text the summary headers are never used: a cleaned
    text has no newline, so a section found under "SUMMARY", "OBJECTIVE",
    "PROFILE" or "ABOUT" has no line after its header line, and
    [_extract_summary] returns the first 500 characters of the whole text
    when the text has more than 50 characters, and nothing otherwise. *)
Theorem summary_of_cleaned_text (raw : str) :
  summary_from_patterns summary_patterns (upper (clean_text raw)) = None /\
  _extract_summary (clean_text raw)
  = if 50 <? len (clean_text raw)
    then Some (firstn 500 (clean_text raw)) else None.
Proof.
  split.
  - apply summary_from_patterns_one_line, upper_no_newline,
      clean_text_no_newline.
  - apply extract_summary_one_line, clean_text_no_newline.
Qed.


Lemma upper_not_lower (x : str) (a : ascii) :
  In a (upper x) -> is_lower a = false.
Proof.
  unfold upper. intros H. apply in_map_iff in H. destruct H as (c & <- & _).
  apply to_upper_not_lower.
Qed.





(** * Education *)

Example education_sample :
  extract_education
    (py "Education" ++ nl ++ py "Bachelor of Science, MIT, M.S. 2015" ++ nl
        ++ py "Diploma in Design" ++ nl ++ py "Skills: Python")
  = [new_education (py "BACHELOR"); new_education (py "DIPLOMA")].
Proof. vm_compute. reflexivity. Qed.

Lemma to_upper_to_lower_fixed (c : ascii) :
  is_lower c = false -> to_upper (to_lower c) = c.
Proof.
  destruct c as [[|] [|] [|] [|] [|] [|] [|] [|]];
    vm_compute; intros H; first [reflexivity | discriminate H].
Qed.

Lemma to_upper_to_lower (a : ascii) : to_upper (to_lower a) = to_upper a.
Proof.
  destruct a as [[|] [|] [|] [|] [|] [|] [|] [|]]; reflexivity.
Qed.

Lemma matches_alt (rs : list regex) (w : str) (c c' : caps) :
  matches (alt rs) w c c' -> exists r, In r rs /\ matches r w c c'.
Proof.
  induction rs as [|r rs IH]; intros H.
  - simpl in H. apply matches_Cls_inv in H.
    destruct H as (a & _ & Ha). discriminate Ha.
  - destruct rs as [|r' rs].
    + exists r. split; [now left | exact H].
    + change (alt (r :: r' :: rs)) with (Alt r (alt (r' :: rs))) in H.
      apply matches_Alt_inv in H. destruct H as [H|H].
      * exists r. split; [now left | exact H].
      * destruct (IH H) as (r0 & Hr0 & M). exists r0.
        split; [now right | exact M].
Qed.

(** A text matched by a literal under IGNORECASE that has no lower-case
    letter is the literal in upper case. *)
Lemma matches_ilit (k w : str) (c c' : caps) :
  matches (ilit k) w c c' ->
  Forall (fun a => is_lower a = false) w ->
  w = upper k.
Proof.
  revert w c. induction k as [|a k IH]; intros w c H F; simpl in H.
  - inversion H. reflexivity.
  - apply matches_Cat_inv in H. destruct H as (w1 & w2 & c1 & -> & H1 & H2).
    apply matches_Cls_inv in H1. destruct H1 as (b & -> & Hb).
    apply Ascii.eqb_eq in Hb. inversion F as [|? ? Fb Fw]; subst.
    simpl. f_equal.
    + rewrite <- (to_upper_to_lower_fixed b Fb), Hb. apply to_upper_to_lower.
    + exact (IH _ _ H2 Fw).
Qed.

Lemma first_section_incl (patterns : list (str * list str)) (x : str)
  (a : ascii) :
  In a (first_section patterns x) -> In a x.
Proof.
  induction patterns as [|[header stops] rest IH]; simpl; [intros []|].
  destruct (search_section header stops x) as [found|] eqn:E; [|exact IH].
  intros H. exact (search_section_incl _ _ _ _ _ E H).
Qed.

(** The group of a degree pattern, read in an upper-case text, is one of
    the names of the pattern in upper case. *)
Lemma degree_pattern_group (names : list str) (y : str) (c : caps)
  (rest : str) :
  Forall (fun a => is_lower a = false) y ->
  match_here (rx (degree_pattern names)) y = Some (c, rest) ->
  exists k, In k names /\ c 1%nat = upper k.
Proof.
  intros F H. apply match_here_sound in H. destruct H as (w & -> & M).
  cbn [rx degree_pattern] in M.
  apply matches_Cat_inv in M. destruct M as (w1 & w2 & c1 & -> & M1 & M2).
  rewrite (matches_other_groups _ _ _ _ M2 1%nat) by (simpl; tauto).
  apply matches_Grp_inv in M1. destruct M1 as (c0 & M1 & ->).
  rewrite set_group_same.
  apply matches_alt in M1. destruct M1 as (r & Hr & M1).
  apply in_map_iff in Hr. destruct Hr as (k & <- & Hk).
  exists k. split; [exact Hk|].
  apply (matches_ilit _ _ _ _ M1).
  apply Forall_app in F. destruct F as [F _].
  apply Forall_app in F. now destruct F.
Qed.

Lemma degree_word_trimmed (k : str) :
  In k (degree_words ++ diploma_words) -> strip (upper k) = upper k.
Proof.
  intros H. simpl in H.
  repeat (destruct H as [<-|H]; [reflexivity|]). destruct H.
Qed.

(** X16.  For an ASCII text, every entry of [extract_education] has as
    degree one of the eleven degree words in upper case ("BACHELOR",
    "MASTER", "PHD", "B.S.", "M.S.", "B.A.", "M.A.", "B.TECH", "M.TECH",
    "DIPLOMA", "CERTIFICATE") and nothing more of the line; no other field is
    ever set. *)
Theorem education_entries (text : str)
  (Hascii : Forall (fun c => is_ascii c = true) text) :
  Forall (fun e =>
            (exists k, In k (degree_words ++ diploma_words) /\
                       degree e = Some (upper k)) /\
            institution e = None /\ edu_location e = None /\
            graduation_date e = None /\ gpa e = None /\
            field_of_study e = None)
         (extract_education text).
Proof.
  apply Forall_forall. intros e He. unfold extract_education in He.
  cbv zeta in He.
  destruct (negb (is_empty (first_section education_patterns (upper text))));
    [|destruct He].
  apply in_flat_map in He. destruct He as (p & Hp & He).
  apply in_map_iff in He. destruct He as (g & <- & Hg).
  unfold re_findall_group in Hg. apply in_map_iff in Hg.
  destruct Hg as (m & <- & Hm).
  destruct (findall_go_inside _ _ _ _ Hm)
    as (pre & y & c & rest & Hx & Hy & ->).
  assert (Forall (fun a => is_lower a = false) y) as F.
  { apply Forall_forall. intros a Ha.
    apply (upper_not_lower text).
    apply (first_section_incl education_patterns).
    rewrite Hx. apply in_or_app. now right. }
  assert (exists k, In k (degree_words ++ diploma_words) /\
                    hd [] (groups p c) = upper k) as (k & Hk & Hd).
  { destruct Hp as [<-|[<-|[]]];
      destruct (degree_pattern_group _ _ _ _ F Hy) as (k & Hk & E);
      exists k; (split; [apply in_or_app; auto | exact E]). }
  split; [|repeat split].
  exists k. split; [exact Hk|]. simpl.
  now rewrite Hd, (degree_word_trimmed k Hk).
Qed.

Lemma education_entries_witness :
  Forall (fun e =>
            (exists k, In k (degree_words ++ diploma_words) /\
                       degree e = Some (upper k)) /\
            institution e = None /\ edu_location e = None /\
            graduation_date e = None /\ gpa e = None /\
            field_of_study e = None)
         (extract_education
            (py "Education" ++ nl ++ py "Bachelor of Science, MIT" ++ nl
                ++ py "Diploma in Design")).
Proof.
  apply education_entries.
  apply Forall_forall, forallb_forall. reflexivity.
Defined.

Lemma first_section_absent (patterns : list (str * list str)) (x : str) :
  (forall header stops, In (header, stops) patterns ->
                        str_in header x = false) ->
  first_section patterns x = [].
Proof.
  induction patterns as [|[header stops] rest IH]; intros H; simpl;
    [reflexivity|].
  unfold search_section.
  pose proof (H header stops (or_introl eq_refl)) as Hh.
  unfold str_in in Hh. destruct (index_of header x); [discriminate|].
  apply IH. intros h s Hin. apply (H h s). now right.
Qed.

(** X17.  A text in which neither "EDUCATION" nor "ACADEMIC" occurs,
    whatever the letter case, gives no education entry, whatever degrees it
    names. *)
Theorem education_needs_a_header (text : str)
  (He : str_in (py "EDUCATION") (upper text) = false)
  (Ha : str_in (py "ACADEMIC") (upper text) = false) :
  extract_education text = [].
Proof.
  unfold extract_education. cbv zeta.
  rewrite first_section_absent; [reflexivity|].
  intros header stops [E|[E|[]]]; injection E as <- _; assumption.
Qed.

Lemma education_needs_a_header_witness :
  extract_education (py "Bachelor of Science, MIT, 2015") = [].
Proof.
  apply education_needs_a_header; reflexivity.
Defined.

(** ** Education in a cleaned text *)

(** A greedy run of a class takes the whole of a text made of the class. *)
Lemma star_rounds_whole (p : ascii -> bool) (n : nat) :
  forall x c,
    Forall (fun a => p a = true) x -> (List.length x <= n)%nat ->
    star_rounds (rmatch (Cls p)) (fun x1 c1 => Some (c1, x1)) n x c
    = Some (c, []).
Proof.
  induction n as [|n IH]; intros x c F L.
  - destruct x; [reflexivity | simpl in L; lia].
  - destruct x as [|a x]; [reflexivity|].
    inversion F as [|? ? Ha Fx]; subst.
    cbn [star_rounds rmatch]. rewrite Ha.
    assert ((List.length x <? List.length (a :: x))%nat = true) as ->
      by (apply Nat.ltb_lt; simpl; lia).
    rewrite IH; [reflexivity | exact Fx | simpl in L; lia].
Qed.

Lemma rmatch_Cat_sound (r1 r2 : regex) (x : str) (c : caps) (k : cont)
  (res : caps * str) :
  rmatch (Cat r1 r2) x c k = Some res ->
  exists w x1 c1,
    x = w ++ x1 /\ matches r1 w c c1 /\ rmatch r2 x1 c1 k = Some res.
Proof.
  intros H.
  change (rmatch r1 x c (fun x1 c1 => rmatch r2 x1 c1 k) = Some res) in H.
  exact (rmatch_sound r1 _ _ _ _ H).
Qed.

(** In a text without a newline a match of a degree pattern runs to the
    end of the text. *)
Lemma degree_pattern_to_the_end (names : list str) (y : str) (c : caps)
  (rest : str) :
  ~ In "010"%char y ->
  match_here (rx (degree_pattern names)) y = Some (c, rest) -> rest = [].
Proof.
  intros Hnl H. unfold match_here in H.
  change (rx (degree_pattern names))
    with (Cat (Grp 1 (alt (map ilit names))) (Star any_but_newline)) in H.
  apply rmatch_Cat_sound in H. destruct H as (w & x1 & c1 & -> & _ & H).
  change (star_rounds (rmatch (Cls (fun a => negb (Ascii.eqb a "010"))))
            (fun x2 c2 => Some (c2, x2)) (List.length x1) x1 c1
          = Some (c, rest)) in H.
  rewrite star_rounds_whole in H; [now injection H as _ <- | | lia].
  apply Forall_forall. intros a Ha.
  destruct (Ascii.eqb a "010") eqn:E; [|reflexivity].
  apply Ascii.eqb_eq in E. subst a. exfalso. apply Hnl.
  apply in_or_app. now right.
Qed.

Lemma findall_go_skip_all (p : pattern) (x : str) :
  match_here (rx p) [] = None ->
  forall skip, (List.length x <= skip)%nat -> findall_go p skip x = [].
Proof.
  intros Hp. induction x as [|a x IH]; intros [|k] L;
    cbn [findall_go List.length] in *; try lia.
  - now rewrite Hp.
  - reflexivity.
  - apply IH. lia.
Qed.

Lemma findall_degree_one_line (names : list str) (x : str) :
  match_here (rx (degree_pattern names)) [] = None ->
  ~ In "010"%char x ->
  (List.length (re_findall (degree_pattern names) x) <= 1)%nat.
Proof.
  intros Hp. unfold re_findall. induction x as [|a x IH]; intros Hnl.
  - cbn [findall_go]. rewrite Hp. simpl. lia.
  - assert (~ In "010"%char x) as Hx by (intro; apply Hnl; now right).
    cbn [findall_go].
    destruct (match_here (rx (degree_pattern names)) (a :: x))
      as [[c rest]|] eqn:E; [|now apply IH].
    rewrite (degree_pattern_to_the_end _ _ _ _ Hnl E).
    rewrite (findall_go_skip_all _ x Hp); [simpl; lia|].
    cbn [List.length]. lia.
Qed.

(** X18.  On a cleaned text [extract_education] gives at most two entries,
    one for each of its two degree patterns: the text has no newline, so the
    first match of a pattern runs to the end of the section and hides every
    later degree. *)
Theorem education_of_cleaned_text (raw : str) :
  (List.length (extract_education (clean_text raw)) <= 2)%nat.
Proof.
  unfold extract_education. cbv zeta.
  assert (~ In "010"%char
            (first_section education_patterns (upper (clean_text raw)))) as Hnl.
  { intros H. apply first_section_incl in H.
    exact (upper_no_newline _ (clean_text_no_newline raw) H). }
  remember (first_section education_patterns (upper (clean_text raw)))
    as education_text eqn:E. clear E.
  destruct (negb (is_empty education_text)); [|simpl; lia].
  pose proof (findall_degree_one_line degree_words _ eq_refl Hnl).
  pose proof (findall_degree_one_line diploma_words _ eq_refl Hnl).
  unfold degree_patterns. cbn [flat_map].
  rewrite !length_app, !length_map. unfold re_findall_group.
  rewrite !length_map. cbn [List.length].
  apply (Nat.le_trans _ (1 + (1 + 0))); [|lia].
  apply Nat.add_le_mono; [exact H|].
  apply Nat.add_le_mono; [exact H0 | lia].
Qed.

(** * The name *)

Example name_sample :
  extract_name (py "Resume 2024" ++ nl ++ nl ++ py "  Jane Q. Doe " ++ nl
                   ++ py "jane@doe.org")
  = Some (py "Jane Q. Doe").
Proof. vm_compute. reflexivity. Qed.

Lemma first_name_line_sound (lines : list str) (name : str) :
  first_name_line lines = Some name ->
  exists before line after,
    lines = before ++ line :: after /\ name = strip line /\
    is_name_line name = true /\
    Forall (fun l => is_name_line (strip l) = false) before.
Proof.
  induction lines as [|l lines IH]; simpl; [discriminate|].
  destruct (is_name_line (strip l)) eqn:E.
  - intros H. injection H as <-. exists [], l, lines.
    repeat split; [exact E | constructor].
  - intros H. destruct (IH H) as (before & line & after & -> & Hn & Ht & F).
    exists (l :: before), line, after.
    repeat split; [exact Hn | exact Ht | now constructor].
Qed.

(** X19.  The name that [extract_contact_info] takes is the first of the
    first five lines of the text that, once stripped, is not empty, has no
    digit and has at most four words; it is returned stripped. *)
Theorem name_is_first_plausible_line (text name : str)
  (H : extract_name text = Some name) :
  exists before line after,
    firstn 5 (split text nl) = before ++ line :: after /\
    name = strip line /\ trimmed name /\
    name <> [] /\
    Forall (fun c => is_digit c = false) name /\
    (List.length (words name) <= 4)%nat /\
    Forall (fun l => is_name_line (strip l) = false) before.
Proof.
  unfold extract_name in H. cbv zeta in H.
  destruct (first_name_line_sound _ _ H)
    as (before & line & after & E & Hn & Ht & F).
  exists before, line, after. split; [exact E|]. split; [exact Hn|].
  unfold is_name_line in Ht.
  apply andb_true_iff in Ht. destruct Ht as [Ht Hw].
  apply andb_true_iff in Ht. destruct Ht as [He Hd].
  split; [|split; [|split; [|split]]].
  - unfold trimmed. rewrite Hn. apply strip_idem.
  - intros ->. discriminate He.
  - apply Forall_forall. intros c Hc.
    destruct (is_digit c) eqn:Ec; [|reflexivity].
    apply negb_true_iff in Hd.
    assert (existsb is_digit name = true) as Hex
      by (apply existsb_exists; now exists c).
    congruence.
  - now apply Nat.leb_le.
  - exact F.
Qed.

Lemma name_is_first_plausible_line_witness :
  exists before line after,
    firstn 5 (split (py "Resume 2024" ++ nl ++ py " Jane Doe ") nl)
    = before ++ line :: after /\
    py "Jane Doe" = strip line /\ trimmed (py "Jane Doe") /\
    py "Jane Doe" <> [] /\
    Forall (fun c => is_digit c = false) (py "Jane Doe") /\
    (List.length (words (py "Jane Doe")) <= 4)%nat /\
    Forall (fun l => is_name_line (strip l) = false) before.
Proof.
  apply (name_is_first_plausible_line
           (py "Resume 2024" ++ nl ++ py " Jane Doe ") (py "Jane Doe")).
  vm_compute. reflexivity.
Defined.

(** * The blocks of the candidates *)

Lemma strip_inside (x : str) : exists a b, x = a ++ strip x ++ b.
Proof.
  destruct (lstrip_split x) as (s & Hx & _).
  destruct (lstrip_split (rev (lstrip x))) as (t & Hr & _).
  exists s, (rev t). unfold strip, rstrip.
  rewrite <- rev_app_distr, <- Hr, rev_involutive. exact Hx.
Qed.

Lemma str_in_strip_inv (sub x : str) :
  str_in sub (strip x) = true -> str_in sub x = true.
Proof.
  intros H. apply str_in_true_iff in H. destruct H as (p & q & E).
  destruct (strip_inside x) as (a & b & Hx).
  apply str_in_true_iff. exists (a ++ p), (q ++ b).
  rewrite Hx at 1. rewrite E. now rewrite <- !app_assoc.
Qed.

(** Before the boundary no marker occurs in full. *)
Lemma no_marker_before_boundary (x : str) (i : nat) (marker : str) :
  In marker next_sections ->
  (forall j, (j < i)%nat -> ~ marker_at x j) ->
  str_in marker (firstn i x) = false.
Proof.
  intros Hm Hleast. destruct (str_in marker (firstn i x)) eqn:E;
    [|reflexivity].
  exfalso. apply str_in_true_iff in E. destruct E as (p & q & E).
  assert (List.length marker <> 0)%nat as Hlen.
  { simpl in Hm. repeat (destruct Hm as [<-|Hm]; [discriminate|]).
    destruct Hm. }
  assert (List.length (firstn i x) <= i)%nat as Hi
    by (rewrite length_firstn; lia).
  rewrite E, !length_app in Hi.
  apply (Hleast (List.length p)); [lia|].
  exists marker. split; [exact Hm|].
  exists p, (q ++ skipn i x). split; [|reflexivity].
  rewrite <- (firstn_skipn i x) at 1. rewrite E.
  now rewrite <- !app_assoc.
Qed.

(** X20.  The block of every candidate is free of white space at both
    ends, is made of characters of the document, and contains none of the
    markers "Education", "Skills", "Projects", "Certifications" in that
    letter case. *)
Theorem candidate_blocks (text : str) :
  Forall (fun c =>
            trimmed (sec_text c) /\
            (forall a, In a (sec_text c) -> In a text) /\
            forall marker, In marker next_sections ->
                           str_in marker (sec_text c) = false)
         (find_sections text).
Proof.
  apply Forall_forall. intros c Hc.
  destruct (find_sections_In _ _ Hc) as (_ & Ht & _).
  split; [|split].
  - unfold trimmed. rewrite Ht. unfold section_text_of.
    destruct (negb _); apply strip_idem.
  - intros a. exact (sec_text_incl _ _ _ Hc).
  - intros marker Hm.
    destruct (str_in marker (sec_text c)) eqn:E; [|reflexivity].
    exfalso. rewrite Ht in E. unfold section_text_of in E.
    destruct (find_next_section_least (after_header_of text c))
      as [[E' Hnone]|(i & E' & _ & Hleast)]; rewrite E' in E.
    + simpl in E. apply str_in_strip_inv, str_in_true_iff in E.
      destruct E as (p & q & E).
      apply (Hnone (List.length p)). exists marker.
      split; [exact Hm | now exists p, q].
    + replace (Z.of_nat i =? -1) with false in E
        by (symmetry; apply Z.eqb_neq; lia).
      simpl in E. rewrite Nat2Z.id in E. apply str_in_strip_inv in E.
      rewrite (no_marker_before_boundary _ _ _ Hm Hleast) in E.
      discriminate E.
Qed.

(** * The block of each header occurrence *)

(** C9 (as amended).  At every offset at which a header synonym occurs in
    the upper-cased text there is a candidate, and its block and score are
    taken from the text after that header up to the boundary.  The boundary
    is the least offset at which one of "Education", "Skills", "Projects",
    "Certifications" occurs with exactly that letter case: the block is that
    prefix, stripped, or the whole remainder of the document when no marker
    occurs.  An upper-case heading ("EDUCATION", "SKILLS", "PROJECTS",
    "CERTIFICATIONS") is never the boundary; it lies inside the block that
    is scored and parsed when no case-exact marker starts before its end. *)
Theorem block_ends_at_case_exact_marker
  (text header : str) (i : nat)
  (Hheader : In header experience_headers)
  (Hocc : occurs_at header (upper text) i) :
  let after_header := skipn (i + List.length header) text in
  exists c,
    In c (find_sections text) /\
    sec_header c = header /\ sec_position c = Z.of_nat i /\
    sec_score c = section_score header (sec_text c) /\
    ((find_next_section after_header = -1 /\
      (forall j, ~ marker_at after_header j) /\
      sec_text c = strip after_header) \/
     (exists b,
        find_next_section after_header = Z.of_nat b /\
        marker_at after_header b /\
        (forall j, (j < b)%nat -> ~ marker_at after_header j) /\
        sec_text c = strip (firstn b after_header))) /\
    (forall marker pre post,
       In marker next_sections ->
       after_header = pre ++ upper marker ++ post ->
       find_next_section after_header <> len pre /\
       (find_next_section after_header = -1 \/
        len pre + len marker <= find_next_section after_header ->
        str_in (upper marker) (sec_text c) = true)).
Proof.
  intros after_header.
  destruct (scan_header_complete text header i (S (List.length text)) 0)
    as (c & Hc & Hh & Hp); [lia | unfold len; lia | lia | exact Hocc |].
  assert (In c (find_sections text)) as Hin
    by (unfold find_sections; apply in_flat_map; now exists header).
  assert (after_header_of text c = after_header) as Ha.
  { unfold after_header_of, after_header, len. rewrite Hh, Hp.
    f_equal. lia. }
  pose proof (candidate_block_boundary text c Hin) as B.
  cbv zeta in B. rewrite Ha, Hh in B.
  exists c. repeat (split; [assumption|]). exact B.
Qed.

Lemma block_ends_at_case_exact_marker_witness :
  exists c,
    In c (find_sections scenario_A) /\
    sec_header c = py "PROFESSIONAL EXPERIENCE" /\ sec_position c = 0 /\
    str_in (py "EDUCATION") (sec_text c) = true.
Proof.
  destruct (block_ends_at_case_exact_marker
              scenario_A (py "PROFESSIONAL EXPERIENCE") 0)
    as (c & Hc & Hh & Hp & _ & _ & Hup).
  - simpl. tauto.
  - exists [], (skipn 23 (upper scenario_A)). split; reflexivity.
  - exists c. repeat (split; [assumption|]).
    refine (proj2 (Hup (py "Education")
                     (nl ++ py "Software Engineer | TechCorp (Jan 2020 - Present)"
                         ++ nl)
                     (nl ++ py "...") _ _) _).
    + simpl. tauto.
    + reflexivity.
    + left. reflexivity.
Defined.

(** C9, the claim as written, fails: an upper-case heading in the text that
    follows the header is not always inside the block.  After a case-exact
    marker it is outside, and a case-exact marker that starts on its last
    letter cuts it. *)
Lemma upper_heading_not_always_in_block :
  (exists c pre post,
     In c (find_sections heading_after_marker) /\
     sec_header c = py "EXPERIENCE" /\ sec_position c = 0 /\
     skipn 10 heading_after_marker = pre ++ upper (py "Education") ++ post /\
     sec_text c = py "foo" /\
     str_in (py "EDUCATION") (sec_text c) = false) /\
  (exists c pre post,
     In c (find_sections heading_cut_by_marker) /\
     sec_header c = py "EXPERIENCE" /\ sec_position c = 0 /\
     skipn 10 heading_cut_by_marker = pre ++ upper (py "Skills") ++ post /\
     sec_text c = py "x SKILL" /\
     str_in (py "SKILLS") (sec_text c) = false).
Proof.
  split.
  - exists {| sec_header := py "EXPERIENCE"; sec_position := 0;
              sec_text := py "foo"; sec_score := -5 |},
           (py " foo Skills bar "), [].
    repeat split; vm_compute; auto.
  - exists {| sec_header := py "EXPERIENCE"; sec_position := 0;
              sec_text := py "x SKILL"; sec_score := -5 |},
           (py " x "), (py "kills").
    repeat split; vm_compute; auto.
Qed.
